(** * The summarization pipeline of Assignment-4 (assignment-4.py)

    A shallow embedding of the map-reduce summarization script: the source
    loader, the per-source Map loop, the Reduce call, the shared
    summarization primitive and the output writer, together with the parts
    of the Python runtime they rest on (str methods, the UTF-8 codec,
    text-mode files, os.path.splitext, csv.writer, argparse's [nargs='+']).

    Conventions.
    - A Python [str] is a list of Unicode code points ([list N]); [len] and
      slicing count code points, as in Python.  File contents are
      [list byte].
    - Python integers are [Z].
    - Effects are threaded through a state-and-exception monad [M]: the
      state holds the console (one entry per [print]), the file system, the
      packages installed during the run and the history of requests sent to
      the chat-completion endpoint.
    - Everything the script obtains from outside (HTTP, the model endpoint,
      the PDF and DOCX libraries, pip, the messages of operating-system
      errors) is a field of the environment record [Env].
    - The runtime is a POSIX one: [os.sep] is "/" and text-mode writes keep
      "\n" as it is.
    - Not modelled: the construction of the API client from the
      environment variables, and the way argparse scans the option words
      ([main] starts from the positional words and the option values it
      found). *)

From Stdlib Require Import ZArith NArith Ascii String DecimalString Lia.
From Stdlib.Strings Require Import Byte.
From stdpp Require Import base option list gmap.

Set Default Proof Using "Type".
Local Open Scope N_scope.

(** ** Python strings *)

Abbreviation str := (list N).
Abbreviation bytes := (list byte).

(** A literal of the script, written as a Rocq string of ASCII characters. *)
Definition lit (s : string) : str := N_of_ascii <$> list_ascii_of_string s.

Definition NL : str := [10].
Definition CR : N := 13.
Definition LF : N := 10.
Definition COMMA : N := 44.
Definition DOT : N := 46.
Definition SLASH : N := 47.
Definition QUOTE : N := 34.

(** [len(s)] *)
Definition len (s : str) : Z := Z.of_nat (length s).

(** [s[:n]] for a non-negative bound [n]. *)
Definition slice_to (n : Z) (s : str) : str := take (Z.to_nat n) s.

Definition str_eqb (a b : str) : bool := bool_decide (a = b).

(** [s.startswith(p)] *)
Fixpoint startswith (s p : str) : bool :=
  match p, s with
  | [], _ => true
  | _ :: _, [] => false
  | c :: p', d :: s' => (c =? d) && startswith s' p'
  end.

(** [s.endswith(p)] *)
Definition endswith (s p : str) : bool :=
  startswith (reverse s) (reverse p).

(** [c in s] for a one-character [c]. *)
Definition contains (c : N) (s : str) : bool := existsb (N.eqb c) s.

(** [str.isspace] on one code point: the code points whose bidirectional
    class is WS, B or S, or whose category is Zs. *)
Definition isspace (c : N) : bool :=
  ((9 <=? c) && (c <=? 13)) || ((28 <=? c) && (c <=? 32))
  || (c =? 133) || (c =? 160) || (c =? 5760)
  || ((8192 <=? c) && (c <=? 8202))
  || (c =? 8232) || (c =? 8233) || (c =? 8239) || (c =? 8287) || (c =? 12288).

Fixpoint lstrip (s : str) : str :=
  match s with
  | [] => []
  | c :: s' => if isspace c then lstrip s' else s
  end.

Definition rstrip (s : str) : str := reverse (lstrip (reverse s)).

(** [s.strip()] *)
Definition strip (s : str) : str := lstrip (rstrip s).

(** Truthiness of a str: the empty string is false. *)
Definition truthy (s : str) : bool :=
  match s with [] => false | _ :: _ => true end.

(** [x or d] for an optional str [x]: [None] and [""] both give [d]. *)
Definition or_default (x : option str) (d : str) : str :=
  match x with
  | Some s => if truthy s then s else d
  | None => d
  end.

(** [s.split(sep)] for a one-character separator: every occurrence splits,
    and the empty string gives one empty piece. *)
Fixpoint split_on (sep : N) (s : str) : list str :=
  match s with
  | [] => [[]]
  | c :: s' =>
      if c =? sep then [] :: split_on sep s'
      else match split_on sep s' with
           | [] => [[c]]
           | piece :: pieces => (c :: piece) :: pieces
           end
  end.

(** [sep.join(parts)] *)
Fixpoint join (sep : str) (parts : list str) : str :=
  match parts with
  | [] => []
  | [p] => p
  | p :: rest => p ++ sep ++ join sep rest
  end.

(** [s.lower()] on the ASCII letters.  Other code points are kept: no
    code point outside ASCII lowercases to a letter of ".txt", ".pdf",
    ".docx" or ".csv", so the extension dispatch of [save_output] is the
    one of the full Unicode mapping. *)
Definition lower_cp (c : N) : N :=
  if (65 <=? c) && (c <=? 90) then c + 32 else c.

Definition lower (s : str) : str := lower_cp <$> s.

(** [str(n)] for an integer. *)
Definition str_of_int (n : Z) : str :=
  lit (NilZero.string_of_int (Z.to_int n)).

(** [s.rfind(c)] for a one-character [c]: the last index, or -1. *)
Fixpoint rfind_aux (c : N) (s : str) (i : Z) (found : Z) : Z :=
  match s with
  | [] => found
  | d :: s' => rfind_aux c s' (i + 1)%Z (if d =? c then i else found)
  end.

Definition rfind (c : N) (s : str) : Z := rfind_aux c s 0%Z (-1)%Z.

(** [s[i:j]] for indices within bounds. *)
Definition slice (i j : Z) (s : str) : str :=
  take (Z.to_nat (j - i)) (drop (Z.to_nat i) s).

(** [os.path.splitext] (posixpath): the extension starts at the last dot
    of the last path component, unless that component has only dots
    before it. *)
Definition splitext (p : str) : str * str :=
  let sepIndex := rfind SLASH p in
  let dotIndex := rfind DOT p in
  if (sepIndex <? dotIndex)%Z then
    if existsb (fun c => negb (c =? DOT)) (slice (sepIndex + 1) dotIndex p)
    then (take (Z.to_nat dotIndex) p, drop (Z.to_nat dotIndex) p)
    else (p, [])
  else (p, []).


(** ** The UTF-8 codec *)

(** The [errors] argument of a decoder.  The script always passes
    ["ignore"]; ["replace"] is the handler that substitutes U+FFFD. *)
Inductive Errors := ErrIgnore | ErrReplace.

(** What a handler puts in the output for one malformed sequence. *)
Definition on_malformed (errors : Errors) : str :=
  match errors with
  | ErrIgnore => []
  | ErrReplace => [0xFFFD]
  end.

Definition is_continuation (c : N) : bool := (0x80 <=? c) && (c <? 0xC0).

Definition byte_of_N (n : N) : byte := default "000"%byte (Byte.of_N n).

(** [bytes.decode("utf-8", errors)], after CPython's decoder: an invalid
    start byte is one malformed sequence of one byte; a lead byte followed
    by a byte that cannot continue it is a malformed sequence ending before
    that byte; a sequence cut short by the end of the data is a malformed
    sequence reaching the end. *)
Fixpoint utf8_decode (errors : Errors) (bs : bytes) : str :=
  match bs with
  | [] => []
  | b1 :: rest =>
    let c1 := Byte.to_N b1 in
    if c1 <? 0x80 then c1 :: utf8_decode errors rest
    else if c1 <? 0xC2 then on_malformed errors ++ utf8_decode errors rest
    else if c1 <? 0xE0 then
      match rest with
      | [] => on_malformed errors
      | b2 :: r2 =>
        let c2 := Byte.to_N b2 in
        if is_continuation c2
        then N.lor (N.shiftl (N.land c1 0x1F) 6) (N.land c2 0x3F)
             :: utf8_decode errors r2
        else on_malformed errors ++ utf8_decode errors rest
      end
    else if c1 <? 0xF0 then
      match rest with
      | [] => on_malformed errors
      | b2 :: r2 =>
        let c2 := Byte.to_N b2 in
        if negb (is_continuation c2)
           || (if c2 <? 0xA0 then c1 =? 0xE0 else c1 =? 0xED)
        then on_malformed errors ++ utf8_decode errors rest
        else
          match r2 with
          | [] => on_malformed errors
          | b3 :: r3 =>
            let c3 := Byte.to_N b3 in
            if is_continuation c3
            then N.lor (N.shiftl (N.land c1 0x0F) 12)
                   (N.lor (N.shiftl (N.land c2 0x3F) 6) (N.land c3 0x3F))
                 :: utf8_decode errors r3
            else on_malformed errors ++ utf8_decode errors r2
          end
      end
    else if c1 <? 0xF5 then
      match rest with
      | [] => on_malformed errors
      | b2 :: r2 =>
        let c2 := Byte.to_N b2 in
        if negb (is_continuation c2)
           || (if c2 <? 0x90 then c1 =? 0xF0 else c1 =? 0xF4)
        then on_malformed errors ++ utf8_decode errors rest
        else
          match r2 with
          | [] => on_malformed errors
          | b3 :: r3 =>
            let c3 := Byte.to_N b3 in
            if negb (is_continuation c3)
            then on_malformed errors ++ utf8_decode errors r2
            else
              match r3 with
              | [] => on_malformed errors
              | b4 :: r4 =>
                let c4 := Byte.to_N b4 in
                if is_continuation c4
                then N.lor (N.shiftl (N.land c1 0x07) 18)
                       (N.lor (N.shiftl (N.land c2 0x3F) 12)
                          (N.lor (N.shiftl (N.land c3 0x3F) 6)
                             (N.land c4 0x3F)))
                     :: utf8_decode errors r4
                else on_malformed errors ++ utf8_decode errors r3
              end
          end
      end
    else on_malformed errors ++ utf8_decode errors rest
  end.

(** One code point encoded (strict): surrogates and values above U+10FFFF
    have no encoding. *)
Definition utf8_encode_cp (c : N) : option bytes :=
  if c <? 0x80 then Some [byte_of_N c]
  else if c <? 0x800 then
    Some [byte_of_N (N.lor 0xC0 (N.shiftr c 6));
          byte_of_N (N.lor 0x80 (N.land c 0x3F))]
  else if c <? 0x10000 then
    if (0xD800 <=? c) && (c <? 0xE000) then None
    else Some [byte_of_N (N.lor 0xE0 (N.shiftr c 12));
               byte_of_N (N.lor 0x80 (N.land (N.shiftr c 6) 0x3F));
               byte_of_N (N.lor 0x80 (N.land c 0x3F))]
  else if c <? 0x110000 then
    Some [byte_of_N (N.lor 0xF0 (N.shiftr c 18));
          byte_of_N (N.lor 0x80 (N.land (N.shiftr c 12) 0x3F));
          byte_of_N (N.lor 0x80 (N.land (N.shiftr c 6) 0x3F));
          byte_of_N (N.lor 0x80 (N.land c 0x3F))]
  else None.

(** [s.encode("utf-8")]: [None] stands for UnicodeEncodeError. *)
Fixpoint utf8_encode (s : str) : option bytes :=
  match s with
  | [] => Some []
  | c :: s' =>
      match utf8_encode_cp c, utf8_encode s' with
      | Some bs, Some bs' => Some (bs ++ bs')
      | _, _ => None
      end
  end.

(** Universal newlines, as a text file opened with [newline=None] reads:
    "\r\n" and a lone "\r" both become "\n". *)
Fixpoint universal_newlines (s : str) : str :=
  match s with
  | [] => []
  | c :: s' =>
      if c =? CR then
        LF :: match s' with
              | [] => []
              | d :: s'' =>
                  if d =? LF then universal_newlines s''
                  else universal_newlines s'
              end
      else c :: universal_newlines s'
  end.

(** A bounded universal quantifier that computes, for the facts about
    single bytes. *)
Fixpoint all_below (k : nat) (P : N -> bool) : bool :=
  match k with
  | O => true
  | S k' => P (N.of_nat k') && all_below k' P
  end.

(** ** csv.writer with the default (excel) dialect *)

Definition csv_needs_quotes (field : str) : bool :=
  existsb (fun c => (c =? COMMA) || (c =? QUOTE) || (c =? CR) || (c =? LF))
          field.

Definition csv_double_quotes (field : str) : str :=
  flat_map (fun c => if c =? QUOTE then [QUOTE; QUOTE] else [c]) field.

Definition csv_field (field : str) : str :=
  if csv_needs_quotes field
  then [QUOTE] ++ csv_double_quotes field ++ [QUOTE]
  else field.

(** The text [writerow] hands to the file: fields joined by commas, a row
    made of one empty field written as two quotes, then "\r\n". *)
Definition csv_row_text (row : list str) : str :=
  match row with
  | [ [] ] => [QUOTE; QUOTE]
  | _ => join [COMMA] (csv_field <$> row)
  end ++ [CR; LF].

(** ** The outside world *)

(** [requests.get]: a transport failure, or a response with its status
    code, the message [raise_for_status] would raise with, and its text. *)
Inductive HttpOutcome :=
| HttpRaise (msg : str)
| HttpResponse (status_code : Z) (status_error : str) (text : str).

(** One message of a chat request. *)
Record ChatMessage := { role : str; content : str }.

(** The arguments of [client.chat.completions.create]. *)
Record ChatRequest := { model : str; messages : list ChatMessage }.

(** The part of a completion the script reads:
    [response.choices[i].message.content], which may be [None]. *)
Inductive ApiOutcome :=
| ApiRaise (msg : str)
| ApiCompletion (choices : list (option str)).

(** What [pip install] does for a package that is not importable. *)
Inductive PipOutcome :=
| PipFails (msg : str)
| PipInstalls (importable_afterwards : bool).

(** A flowable of a reportlab story. *)
Inductive Flowable :=
| Paragraph (line : str)
| Spacer (width height : Z).

Record Env := {
  (** [requests.get(url, timeout=10)] *)
  requests_get : str -> HttpOutcome;
  (** the chat-completion endpoint, given the requests sent before *)
  chat_completions_create : list ChatRequest -> ChatRequest -> ApiOutcome;
  (** module names importable when the run starts *)
  importable : str -> bool;
  pip_install : str -> PipOutcome;
  (** [PyPDF2.PdfReader(f).pages], each with its [extract_text()] *)
  pdf_pages : bytes -> str + list (option str);
  (** [docx.Document(path).paragraphs], each with its [text] *)
  docx_paragraphs : bytes -> str + list str;
  (** [SimpleDocTemplate(...).build(story)] *)
  pdf_build : list Flowable -> str + bytes;
  (** a docx document with the given paragraphs, as [doc.save] writes it *)
  docx_render : list str -> str + bytes;
  (** the message of the OSError raised when a path cannot be read *)
  read_error : str -> str;
  (** the OSError, if any, raised when a path is opened for writing *)
  write_error : str -> option str;
  (** the message of the UnicodeEncodeError raised for a text *)
  encode_error : str -> str
}.

Record State := {
  console : list str;
  files : gmap str bytes;
  installed : list str;
  llm_calls : list ChatRequest
}.

Definition set_console (f : list str -> list str) (st : State) : State :=
  {| console := f (console st); files := files st;
     installed := installed st; llm_calls := llm_calls st |}.

Definition set_files (f : gmap str bytes -> gmap str bytes) (st : State)
  : State :=
  {| console := console st; files := f (files st);
     installed := installed st; llm_calls := llm_calls st |}.

Definition set_installed (f : list str -> list str) (st : State) : State :=
  {| console := console st; files := files st;
     installed := f (installed st); llm_calls := llm_calls st |}.

Definition set_llm_calls (f : list ChatRequest -> list ChatRequest)
  (st : State) : State :=
  {| console := console st; files := files st;
     installed := installed st; llm_calls := f (llm_calls st) |}.

(** ** Exceptions and the monad *)

(** [Exception(msg)] is what [except Exception] catches; [SystemExit] is
    raised by [sys.exit] and by argparse, and passes through it. *)
Inductive Exc :=
| Exception (msg : str)
| SystemExit (code : Z).

Inductive Res (A : Type) :=
| Ret (a : A)
| Raise (e : Exc).
Arguments Ret {A} a.
Arguments Raise {A} e.

Definition M (A : Type) : Type := State -> Res A * State.

#[global] Instance M_ret : MRet M := fun A a st => (Ret a, st).

#[global] Instance M_bind : MBind M := fun A B f m st =>
  match m st with
  | (Ret a, st') => f a st'
  | (Raise e, st') => (Raise e, st')
  end.

Definition raise {A} (e : Exc) : M A := fun st => (Raise e, st).

Definition get_state : M State := fun st => (Ret st, st).

Definition modify (f : State -> State) : M unit := fun st => (Ret tt, f st).

(** [try: body except Exception as e: handler(e)] *)
Definition try_except {A} (body : M A) (handler : str -> M A) : M A :=
  fun st =>
    match body st with
    | (Raise (Exception msg), st') => handler msg st'
    | r => r
    end.

(** [print(s)] *)
Definition print (s : str) : M unit :=
  modify (set_console (fun out => out ++ [s])).

(** [sys.exit(code)] *)
Definition sys_exit {A} (code : Z) : M A := raise (SystemExit code).

Definition lift_result {A} (r : str + A) : M A :=
  match r with
  | inl msg => raise (Exception msg)
  | inr a => mret a
  end.

(** ** The script *)

Definition MAX_CHARS : Z := 12000.

Definition PACKAGE_EMOJI : str := [0x1F4E6].
Definition WARNING_EMOJI : str := [0x26A0; 0xFE0F].
Definition CHECK_EMOJI : str := [0x2705].
Definition CROSS_EMOJI : str := [0x274C].

(** The parsed command line, [args]. *)
Record Args := {
  sources : list str;
  query : option str;
  output : option str
}.

(** The command line as argparse has split it: the positional words and
    the values given to [-q/--query] and [-o/--output]. *)
Record CommandLine := {
  positionals : list str;
  opt_query : option str;
  opt_output : option str
}.

Section Script.

Variable env : Env.

(** [importlib.import_module(name)] *)
Definition import_module (name : str) : M unit :=
  st ← get_state;
  if importable env name || bool_decide (name ∈ installed st) then mret tt
  else raise (Exception (lit "No module named '" ++ name ++ lit "'")).

(** [subprocess.check_call([sys.executable, "-m", "pip", "install", package])]
    for a package that provides the module [name]. *)
Definition pip_install_call (package name : str) : M unit :=
  match pip_install env package with
  | PipFails msg => raise (Exception msg)
  | PipInstalls true => modify (set_installed (fun l => name :: l))
  | PipInstalls false => mret tt
  end.

Definition install_and_import (package : str) (import_name : option str)
  : M unit :=
  let name := or_default import_name package in
  try_except (import_module name)
    (fun _ =>
       print (PACKAGE_EMOJI ++ lit " Installing missing package: "
                ++ package ++ lit " ...");;
       pip_install_call package name;;
       import_module name).

(** [open(path, "rb").read()] *)
Definition read_binary (path : str) : M bytes :=
  st ← get_state;
  match files st !! path with
  | Some data => mret data
  | None => raise (Exception (read_error env path))
  end.

(** [open(path, "r", encoding="utf-8", errors="ignore").read()] *)
Definition read_text (path : str) : M str :=
  data ← read_binary path;
  mret (universal_newlines (utf8_decode ErrIgnore data)).

(** Opening a path for writing creates the file, or empties it. *)
Definition open_for_writing (path : str) : M unit :=
  match write_error env path with
  | Some msg => raise (Exception msg)
  | None => modify (set_files (fun fs => <[path := []]> fs))
  end.

Definition append_bytes (path : str) (data : bytes) : M unit :=
  modify (set_files (fun fs => <[path := default [] (fs !! path) ++ data]> fs)).

(** [f.write(text)] on a file opened with [encoding="utf-8"]. *)
Definition write_text (path : str) (text : str) : M unit :=
  match utf8_encode text with
  | Some data => append_bytes path data
  | None => raise (Exception (encode_error env text))
  end.

Definition load_source (source_path : str) : M str :=
  try_except
    (if startswith source_path (lit "http://")
        || startswith source_path (lit "https://") then
       match requests_get env source_path with
       | HttpRaise msg => raise (Exception msg)
       | HttpResponse status_code status_error text =>
           (* response.raise_for_status() *)
           if ((400 <=? status_code) && (status_code <? 600))%Z
           then raise (Exception status_error)
           else mret text
       end
     else if endswith source_path (lit ".pdf") then
       install_and_import (lit "PyPDF2") None;;
       data ← read_binary source_path;
       pages ← lift_result (pdf_pages env data);
       mret (join NL ((fun page => or_default page []) <$> pages))
     else if endswith source_path (lit ".docx") then
       install_and_import (lit "python-docx") (Some (lit "docx"));;
       data ← read_binary source_path;
       paragraphs ← lift_result (docx_paragraphs env data);
       mret (join NL paragraphs)
     else if endswith source_path (lit ".csv")
             || endswith source_path (lit ".txt") then
       read_text source_path
     else
       read_text source_path)
    (fun e =>
       print (lit "Warning: Could not load source '" ++ source_path
                ++ lit "'. Error: " ++ e);;
       mret []).

(** The row of the csv branch for a line:
    [[col.strip() for col in line.split(",")] if "," in line else [line]]. *)
Definition csv_row_of_line (line : str) : list str :=
  if contains COMMA line then strip <$> split_on COMMA line else [line].

(** The loop of the csv branch: one [writerow] per line. *)
Fixpoint write_csv_rows (path : str) (lines : list str) : M unit :=
  match lines with
  | [] => mret tt
  | line :: rest =>
      let row := csv_row_of_line line in
      write_text path (csv_row_text row);;
      write_csv_rows path rest
  end.

Definition save_output (result_text output_path : str) : M unit :=
  let ext := lower (splitext output_path).2 in
  try_except
    ((if str_eqb ext (lit ".txt") then
        open_for_writing output_path;;
        write_text output_path result_text
      else if str_eqb ext (lit ".pdf") then
        install_and_import (lit "reportlab") None;;
        let story :=
          flat_map (fun line => if truthy (strip line)
                                then [Paragraph line; Spacer 1 12]
                                else [])
                   (split_on LF result_text) in
        data ← lift_result (pdf_build env story);
        open_for_writing output_path;;
        append_bytes output_path data
      else if str_eqb ext (lit ".docx") then
        install_and_import (lit "python-docx") (Some (lit "docx"));;
        data ← lift_result (docx_render env (split_on LF result_text));
        open_for_writing output_path;;
        append_bytes output_path data
      else if str_eqb ext (lit ".csv") then
        open_for_writing output_path;;
        write_csv_rows output_path (split_on LF result_text)
      else
        raise (Exception (lit "Unsupported output format: " ++ ext)));;
     print (NL ++ CHECK_EMOJI ++ lit " Output saved to: " ++ output_path))
    (fun e =>
       print (CROSS_EMOJI ++ lit " Error saving output to " ++ output_path
                ++ lit ": " ++ e)).

(** The request [summarize_text] sends. *)
Definition chat_request (text : str) (query : option str) : ChatRequest :=
  let full_prompt :=
    lit "Context:" ++ NL ++ text ++ NL ++ NL ++ lit "Question: "
      ++ or_default query (lit "Summarize the content") ++ NL
      ++ lit "Answer:" in
  {| model := lit "gpt-4o-mini";
     messages := [ {| role := lit "system";
                      content := lit "You are a helpful assistant." |};
                   {| role := lit "user"; content := full_prompt |} ] |}.

(** [client.chat.completions.create(...)]: the request is recorded and the
    endpoint answers. *)
Definition create_completion (request : ChatRequest)
  : M (list (option str)) :=
  st ← get_state;
  modify (set_llm_calls (fun calls => calls ++ [request]));;
  match chat_completions_create env (llm_calls st) request with
  | ApiRaise msg => raise (Exception msg)
  | ApiCompletion choices => mret choices
  end.

Definition summarize_text (text : str) (query : option str) : M str :=
  try_except
    (choices ← create_completion (chat_request text query);
     (* response.choices[0].message.content.strip() *)
     match choices with
     | [] => raise (Exception (lit "list index out of range"))
     | None :: _ =>
         raise (Exception
                  (lit "'NoneType' object has no attribute 'strip'"))
     | Some content :: _ => mret (strip content)
     end)
    (fun e =>
       print (lit "Error during summarization: " ++ e);;
       mret []).

(** The record the Map loop appends for a source. *)
Definition summary_record (source summary : str) : str :=
  lit "--- Summary of " ++ source ++ lit " ---" ++ NL ++ summary ++ NL.

(** The body of the Map loop that follows the emptiness test: truncate,
    summarize, and build the record. *)
Definition map_source (source file_text : str) : M str :=
  file_text' ←
    (if (MAX_CHARS <? len file_text)%Z then
       print (WARNING_EMOJI ++ lit " " ++ source ++ lit " is too long ("
                ++ str_of_int (len file_text) ++ lit " chars). Truncating to "
                ++ str_of_int MAX_CHARS ++ lit ".");;
       mret (slice_to MAX_CHARS file_text)
     else mret file_text);
  summary ← summarize_text file_text'
              (Some (lit "Summarize this file in detail."));
  mret (summary_record source summary).

(** [for source in args.sources: ...], with the accumulator [summaries]. *)
Fixpoint map_stage (srcs : list str) (summaries : list str)
  : M (list str) :=
  match srcs with
  | [] => mret summaries
  | source :: rest =>
      print (lit "-> Processing: " ++ source);;
      file_text ← load_source source;
      if negb (truthy (strip file_text)) then
        print (WARNING_EMOJI ++ lit " No text found in " ++ source
                 ++ lit ", skipping.");;
        map_stage rest summaries
      else
        record ← map_source source file_text;
        map_stage rest (summaries ++ [record])
  end.

(** [parser.parse_args()]: [sources] is declared with [nargs='+'], so a
    command line without a positional word is a usage error, and argparse
    exits with status 2. *)
Definition parse_args (cl : CommandLine) : M Args :=
  match positionals cl with
  | [] => sys_exit 2
  | _ :: _ => mret {| sources := positionals cl;
                      query := opt_query cl;
                      output := opt_output cl |}
  end.

(** [main()], from [parser.parse_args()] on. *)
Definition main (cl : CommandLine) : M unit :=
  args ← parse_args cl;
  summaries ← map_stage (sources args) [];
  if bool_decide (summaries = []) then
    print (lit "No usable summaries produced. Exiting.");;
    sys_exit 1
  else
    let combined_text := join NL summaries in
    final_answer ← summarize_text combined_text (query args);
    print (NL ++ lit "--- Final Result ---");;
    print final_answer;;
    print (lit "--------------------");;
    match output args with
    | Some output_path =>
        if truthy output_path then save_output final_answer output_path
        else mret tt
    | None => mret tt
    end.


End Script.


(** ** Vocabulary of the statements *)

(** The test of the Map loop: the text is kept when [text.strip()] is
    not empty. *)
Definition nonblank (text : str) : bool := truthy (strip text).

(** The fixed instruction of the Map calls. *)
Definition MAP_INSTRUCTION : str := lit "Summarize this file in detail.".

(** The text the Map loop submits for a loaded text. *)
Definition submitted_text (file_text : str) : str :=
  if (MAX_CHARS <? len file_text)%Z then slice_to MAX_CHARS file_text
  else file_text.

(** The warning the Map loop prints before it truncates. *)
Definition truncation_warning (source file_text : str) : str :=
  WARNING_EMOJI ++ lit " " ++ source ++ lit " is too long ("
    ++ str_of_int (len file_text) ++ lit " chars). Truncating to "
    ++ str_of_int MAX_CHARS ++ lit ".".

(** What [summarize_text] returns and prints for each answer of the
    endpoint. *)
Definition api_answer (o : ApiOutcome) : str * list str :=
  match o with
  | ApiRaise msg => ([], [lit "Error during summarization: " ++ msg])
  | ApiCompletion [] =>
      ([], [lit "Error during summarization: list index out of range"])
  | ApiCompletion (None :: _) =>
      ([], [lit "Error during summarization: "
              ++ lit "'NoneType' object has no attribute 'strip'"])
  | ApiCompletion (Some content :: _) => (strip content, [])
  end.

(** A state at the start of a run, with the given files. *)
Definition fresh (fs : gmap str bytes) : State :=
  {| console := []; files := fs; installed := []; llm_calls := [] |}.

(** The text [load_source] returns for a source, given the files. *)
Definition loaded_text (env : Env) (fs : gmap str bytes) (source : str)
  : str :=
  match load_source env source (fresh fs) with
  | (Ret text, _) => text
  | (Raise _, _) => []
  end.

(** The package the script installs for a module name. *)
Definition script_package (name : str) : str :=
  if str_eqb name (lit "docx") then lit "python-docx" else name.

(** The modules recorded as installed during the run are modules pip can
    install: this holds when a run starts and is kept by every step. *)
Definition installs_consistent (env : Env) (st : State) : Prop :=
  forall name, name ∈ installed st ->
               pip_install env (script_package name) = PipInstalls true.

(** A source the loader treats as plain text: not a URL, not a PDF, not a
    word-processor document. *)
Definition plain_text_source (source : str) : bool :=
  negb (startswith source (lit "http://"))
  && negb (startswith source (lit "https://"))
  && negb (endswith source (lit ".pdf"))
  && negb (endswith source (lit ".docx")).

(** The extensions [save_output] handles. *)
Definition supported_extension (ext : str) : bool :=
  str_eqb ext (lit ".txt") || str_eqb ext (lit ".pdf")
  || str_eqb ext (lit ".docx") || str_eqb ext (lit ".csv").

Definition output_extension (output_path : str) : str :=
  lower (splitext output_path).2.

Definition unsupported_format_error (output_path : str) : str :=
  CROSS_EMOJI ++ lit " Error saving output to " ++ output_path ++ lit ": "
    ++ lit "Unsupported output format: " ++ output_extension output_path.

Definition saved_message (output_path : str) : str :=
  NL ++ CHECK_EMOJI ++ lit " Output saved to: " ++ output_path.

Definition load_warning (env : Env) (source : str) : str :=
  lit "Warning: Could not load source '" ++ source ++ lit "'. Error: "
    ++ read_error env source.

(** The state after the three prints that report the final answer. *)
Definition reported (final_answer : str) (st : State) : State :=
  set_console
    (fun out => out ++ [NL ++ lit "--- Final Result ---"; final_answer;
                        lit "--------------------"])
    st.

(** The state after a call of [summarize_text] that the endpoint answered
    with [o]. *)
Definition summarized (request : ChatRequest) (o : ApiOutcome) (st : State)
  : State :=
  set_console (fun out => out ++ (api_answer o).2)
    (set_llm_calls (fun calls => calls ++ [request]) st).



(** The code points that have a UTF-8 encoding: the Unicode scalar
    values. *)
Definition encodable (c : N) : bool :=
  (c <? 0xD800) || ((0xE000 <=? c) && (c <? 0x110000)).

(** [s.count(c)] for a one-character [c]. *)
Definition count_char (c : N) (s : str) : nat :=
  length (List.filter (N.eqb c) s).

(** The text of a csv file: the rows of the lines, one after the other. *)
Definition csv_file_text (result_text : str) : str :=
  concat ((fun line => csv_row_text (csv_row_of_line line))
            <$> split_on LF result_text).

(** ** The wording of the specification, where it differs from the code *)

Module Spec.

(** "Summary of <source>: <text>" *)
Definition summary_record (source text : str) : str :=
  lit "Summary of " ++ source ++ lit ": " ++ text.

(** The system role "You are a helpful assistant". *)
Definition system_role : str := lit "You are a helpful assistant".

(** "Context:\n{context}\n\nQuestion: {question}\nAnswer:" *)
Definition prompt (context question : str) : str :=
  lit "Context:" ++ NL ++ context ++ NL ++ NL ++ lit "Question: "
    ++ question ++ NL ++ lit "Answer:".

(** The request made of that system role and that prompt. *)
Definition request (context question : str) : ChatRequest :=
  {| model := lit "gpt-4o-mini";
     messages := [ {| role := lit "system"; content := system_role |};
                   {| role := lit "user";
                      content := prompt context question |} ] |}.

(** Reading as UTF-8 "replacing undecodable bytes". *)
Definition decode_replacing (data : bytes) : str :=
  utf8_decode ErrReplace data.

End Spec.

(** ** Concrete worlds, for running the script *)

Module Demo.

(** An endpoint that answers every request with the same text. *)
Definition env_answering (answer : str) : Env := {|
  requests_get := fun _ => HttpRaise (lit "connection refused");
  chat_completions_create := fun _ _ => ApiCompletion [Some answer];
  importable := fun _ => false;
  pip_install := fun _ => PipFails (lit "pip failed");
  pdf_pages := fun _ => inl (lit "not a PDF");
  docx_paragraphs := fun _ => inl (lit "not a DOCX");
  pdf_build := fun _ => inl (lit "cannot build");
  docx_render := fun _ => inl (lit "cannot render");
  read_error := fun path =>
    lit "[Errno 2] No such file or directory: '" ++ path ++ lit "'";
  write_error := fun _ => None;
  encode_error := fun _ => lit "'utf-8' codec can't encode characters"
|}.

Definition env : Env := env_answering (lit " S ").

(** An endpoint that is down. *)
Definition env_offline : Env := {|
  requests_get := requests_get env;
  chat_completions_create := fun _ _ => ApiRaise (lit "Connection error.");
  importable := importable env;
  pip_install := pip_install env;
  pdf_pages := pdf_pages env;
  docx_paragraphs := docx_paragraphs env;
  pdf_build := pdf_build env;
  docx_render := docx_render env;
  read_error := read_error env;
  write_error := write_error env;
  encode_error := encode_error env
|}.

Definition ascii_bytes (s : string) : bytes := byte_of_N <$> lit s.

(** A working directory with a short text file, a blank one, one holding
    a byte that is not UTF-8, and one of 12,001 characters. *)
Definition disk : gmap str bytes :=
  <[lit "a.txt" := ascii_bytes "Hello world"]>
  (<[lit "blank.txt" := ascii_bytes "   "]>
  (<[lit "bad.txt" := ["a"; "255"; "b"]%byte]>
  (<[lit "long.txt" := replicate (N.to_nat 12001) "a"%byte]> ∅))).

Definition cmd (srcs : list string) (q o : option string) : CommandLine :=
  {| positionals := lit <$> srcs; opt_query := lit <$> q;
     opt_output := lit <$> o |}.

Definition three_lines : str :=
  lit "line1" ++ NL ++ lit "line2" ++ NL ++ lit "line3".

Definition home : State := fresh disk.

(** The state in which a source is loaded: its name has been printed. *)
Definition processing (source : string) : State :=
  set_console (fun out => out ++ [lit "-> Processing: " ++ lit source]) home.



(** The state a Map loop over the given sources ends in. *)
Definition after_map (e : Env) (srcs : list string) : State :=
  (map_stage e (lit <$> srcs) [] home).2.

End Demo.

(** ** More concrete worlds *)

Module Cases.

(** A web that answers every request with the given status and body, a
    pip that installs what it is asked for, PyPDF2 already there and
    reading two pages without text from any file, and a file system that
    refuses to open "locked.txt" for writing. *)
Definition env (status : Z) (body : str) : Env := {|
  requests_get := fun _ => HttpResponse status (lit "Client Error") body;
  chat_completions_create := chat_completions_create Demo.env;
  importable := fun name => str_eqb name (lit "PyPDF2");
  pip_install := fun _ => PipInstalls true;
  pdf_pages := fun _ => inr [None; Some (lit "  ")];
  docx_paragraphs := docx_paragraphs Demo.env;
  pdf_build := pdf_build Demo.env;
  docx_render := docx_render Demo.env;
  read_error := read_error Demo.env;
  write_error := fun path =>
    if str_eqb path (lit "locked.txt") then Some (lit "Permission denied")
    else None;
  encode_error := encode_error Demo.env
|}.

Definition online : Env := env 200 (lit "<html>").

Definition disk : gmap str bytes :=
  <[lit "scan.pdf" := Demo.ascii_bytes "%PDF-1.7"]> Demo.disk.

(** A text with a lone surrogate, which UTF-8 cannot encode. *)
Definition surrogate_text : str := [104; 0xD800].

End Cases.

(** ** The UTF-8 codec: decoding what was encoded *)

Lemma all_below_spec (k : nat) (P : N -> bool) :
  all_below k P = true -> forall x, x < N.of_nat k -> P x = true.
Proof.
  induction k as [ | k IH]; simpl; intros H x Hx; [lia | ].
  apply andb_prop in H as [Hk Hrest].
  destruct (N.eq_dec x (N.of_nat k)) as [-> | Hne]; [exact Hk | ].
  apply IH; [exact Hrest | lia].
Qed.

Lemma to_N_byte_of_N (n : N) : n < 256 -> Byte.to_N (byte_of_N n) = n.
Proof.
  intros Hn. unfold byte_of_N.
  destruct (Byte.of_N n) as [b | ] eqn:Hb; simpl.
  - now apply Byte.to_of_N.
  - apply Byte.of_N_None_iff in Hb. lia.
Qed.

(** A continuation byte carries six bits. *)
Lemma continuation_byte (r : N) :
  r < 64 ->
  N.lor 0x80 r = 0x80 + r /\ N.land (0x80 + r) 0x3F = r.
Proof.
  intros Hr.
  pose proof (all_below_spec 64
                (fun r => (N.lor 0x80 r =? 0x80 + r)
                          && (N.land (0x80 + r) 0x3F =? r))
                eq_refl r Hr) as H.
  apply andb_prop in H as [H1 H2].
  now apply N.eqb_eq in H1, H2.
Qed.

(** The lead bytes of sequences of two, three and four bytes carry five,
    four and three bits. *)
Lemma lead_byte_2 (x : N) :
  x < 32 -> N.lor 0xC0 x = 0xC0 + x /\ N.land (0xC0 + x) 0x1F = x.
Proof.
  intros Hx.
  pose proof (all_below_spec 32
                (fun x => (N.lor 0xC0 x =? 0xC0 + x)
                          && (N.land (0xC0 + x) 0x1F =? x))
                eq_refl x Hx) as H.
  apply andb_prop in H as [H1 H2].
  now apply N.eqb_eq in H1, H2.
Qed.

Lemma lead_byte_3 (x : N) :
  x < 16 -> N.lor 0xE0 x = 0xE0 + x /\ N.land (0xE0 + x) 0x0F = x.
Proof.
  intros Hx.
  pose proof (all_below_spec 16
                (fun x => (N.lor 0xE0 x =? 0xE0 + x)
                          && (N.land (0xE0 + x) 0x0F =? x))
                eq_refl x Hx) as H.
  apply andb_prop in H as [H1 H2].
  now apply N.eqb_eq in H1, H2.
Qed.

Lemma lead_byte_4 (x : N) :
  x < 8 -> N.lor 0xF0 x = 0xF0 + x /\ N.land (0xF0 + x) 0x07 = x.
Proof.
  intros Hx.
  pose proof (all_below_spec 8
                (fun x => (N.lor 0xF0 x =? 0xF0 + x)
                          && (N.land (0xF0 + x) 0x07 =? x))
                eq_refl x Hx) as H.
  apply andb_prop in H as [H1 H2].
  now apply N.eqb_eq in H1, H2.
Qed.

(** A number is its high bits shifted back, or'ed with its six low bits. *)
Lemma split_low_bits (c : N) :
  N.lor (N.shiftl (N.shiftr c 6) 6) (N.land c 0x3F) = c.
Proof.
  change 0x3F with (N.ones 6).
  rewrite <- N.ldiff_ones_r. apply N.lor_ldiff_and.
Qed.

Lemma shiftr_div (c : N) :
  N.shiftr c 6 = c / 64 /\ N.shiftr c 12 = c / 4096
  /\ N.shiftr c 18 = c / 262144.
Proof. rewrite !N.shiftr_div_pow2. now repeat split. Qed.

Lemma land_mod (c : N) : N.land c 0x3F = c mod 64.
Proof. change 0x3F with (N.ones 6). now rewrite N.land_ones. Qed.

Ltac euclid := zify; Z.to_euclidean_division_equations; lia.

Lemma merge_bits_3 (c : N) :
  N.lor (N.shiftl (N.shiftr c 12) 12)
    (N.lor (N.shiftl (N.land (N.shiftr c 6) 0x3F) 6) (N.land c 0x3F)) = c.
Proof.
  pose proof (split_low_bits (N.shiftr c 6)) as Hhigh.
  apply (f_equal (fun v => N.shiftl v 6)) in Hhigh.
  rewrite N.shiftl_lor, N.shiftl_shiftl, N.shiftr_shiftr in Hhigh.
  rewrite N.lor_assoc. change (6 + 6) with 12 in Hhigh. rewrite Hhigh.
  apply split_low_bits.
Qed.

Lemma merge_bits_4 (c : N) :
  N.lor (N.shiftl (N.shiftr c 18) 18)
    (N.lor (N.shiftl (N.land (N.shiftr c 12) 0x3F) 12)
       (N.lor (N.shiftl (N.land (N.shiftr c 6) 0x3F) 6) (N.land c 0x3F)))
  = c.
Proof.
  pose proof (merge_bits_3 (N.shiftr c 6)) as Hhigh.
  apply (f_equal (fun v => N.shiftl v 6)) in Hhigh.
  rewrite !N.shiftl_lor, !N.shiftl_shiftl, !N.shiftr_shiftr in Hhigh.
  change (6 + 12) with 18 in Hhigh. change (12 + 6) with 18 in Hhigh.
  change (6 + 6) with 12 in Hhigh.
  rewrite !N.lor_assoc. rewrite !N.lor_assoc in Hhigh. rewrite Hhigh.
  apply split_low_bits.
Qed.

Lemma is_continuation_byte (r : N) :
  r < 64 -> is_continuation (0x80 + r) = true.
Proof.
  intros Hr. unfold is_continuation. apply andb_true_intro.
  split; [apply N.leb_le | apply N.ltb_lt]; lia.
Qed.

Ltac unfold_decoder :=
  cbv beta iota zeta delta [utf8_decode]; fold utf8_decode.

Ltac decide_ltb :=
  repeat match goal with
         | |- context [?a <? ?b] =>
             first [ replace (a <? b) with true
                       by (symmetry; apply N.ltb_lt; lia)
                   | replace (a <? b) with false
                       by (symmetry; apply N.ltb_ge; lia) ]
         end.

(** The decoder on well-formed sequences of one to four bytes. *)
Lemma utf8_decode_1 (errors : Errors) (b1 : byte) (rest : bytes) :
  Byte.to_N b1 < 0x80 ->
  utf8_decode errors (b1 :: rest) = Byte.to_N b1 :: utf8_decode errors rest.
Proof. intros H. unfold_decoder. now decide_ltb. Qed.

Lemma utf8_decode_2 (errors : Errors) (b1 b2 : byte) (rest : bytes) :
  0xC2 <= Byte.to_N b1 < 0xE0 ->
  is_continuation (Byte.to_N b2) = true ->
  utf8_decode errors (b1 :: b2 :: rest)
  = N.lor (N.shiftl (N.land (Byte.to_N b1) 0x1F) 6)
      (N.land (Byte.to_N b2) 0x3F)
    :: utf8_decode errors rest.
Proof. intros H1 H2. unfold_decoder. decide_ltb. now rewrite H2. Qed.

Lemma utf8_decode_3 (errors : Errors) (b1 b2 b3 : byte) (rest : bytes) :
  0xE0 <= Byte.to_N b1 < 0xF0 ->
  is_continuation (Byte.to_N b2) = true ->
  (if Byte.to_N b2 <? 0xA0 then Byte.to_N b1 =? 0xE0
   else Byte.to_N b1 =? 0xED) = false ->
  is_continuation (Byte.to_N b3) = true ->
  utf8_decode errors (b1 :: b2 :: b3 :: rest)
  = N.lor (N.shiftl (N.land (Byte.to_N b1) 0x0F) 12)
      (N.lor (N.shiftl (N.land (Byte.to_N b2) 0x3F) 6)
         (N.land (Byte.to_N b3) 0x3F))
    :: utf8_decode errors rest.
Proof.
  intros H1 H2 Hok H3. unfold_decoder.
  replace (Byte.to_N b1 <? 0x80) with false
    by (symmetry; apply N.ltb_ge; lia).
  replace (Byte.to_N b1 <? 0xC2) with false
    by (symmetry; apply N.ltb_ge; lia).
  replace (Byte.to_N b1 <? 0xE0) with false
    by (symmetry; apply N.ltb_ge; lia).
  replace (Byte.to_N b1 <? 0xF0) with true
    by (symmetry; apply N.ltb_lt; lia).
  now rewrite H2, Hok, H3.
Qed.

Lemma utf8_decode_4 (errors : Errors) (b1 b2 b3 b4 : byte) (rest : bytes) :
  0xF0 <= Byte.to_N b1 < 0xF5 ->
  is_continuation (Byte.to_N b2) = true ->
  (if Byte.to_N b2 <? 0x90 then Byte.to_N b1 =? 0xF0
   else Byte.to_N b1 =? 0xF4) = false ->
  is_continuation (Byte.to_N b3) = true ->
  is_continuation (Byte.to_N b4) = true ->
  utf8_decode errors (b1 :: b2 :: b3 :: b4 :: rest)
  = N.lor (N.shiftl (N.land (Byte.to_N b1) 0x07) 18)
      (N.lor (N.shiftl (N.land (Byte.to_N b2) 0x3F) 12)
         (N.lor (N.shiftl (N.land (Byte.to_N b3) 0x3F) 6)
            (N.land (Byte.to_N b4) 0x3F)))
    :: utf8_decode errors rest.
Proof.
  intros H1 H2 Hok H3 H4. unfold_decoder.
  replace (Byte.to_N b1 <? 0x80) with false
    by (symmetry; apply N.ltb_ge; lia).
  replace (Byte.to_N b1 <? 0xC2) with false
    by (symmetry; apply N.ltb_ge; lia).
  replace (Byte.to_N b1 <? 0xE0) with false
    by (symmetry; apply N.ltb_ge; lia).
  replace (Byte.to_N b1 <? 0xF0) with false
    by (symmetry; apply N.ltb_ge; lia).
  replace (Byte.to_N b1 <? 0xF5) with true
    by (symmetry; apply N.ltb_lt; lia).
  now rewrite H2, Hok, H3, H4.
Qed.

(** Decoding what [utf8_encode_cp] produced gives the code point back. *)
Lemma utf8_decode_encode_cp (errors : Errors) (c : N) (bs more : bytes) :
  utf8_encode_cp c = Some bs ->
  utf8_decode errors (bs ++ more) = c :: utf8_decode errors more.
Proof.
  unfold utf8_encode_cp.
  destruct (shiftr_div c) as (Hs6 & Hs12 & Hs18).
  pose proof (land_mod c) as Hm0.
  pose proof (land_mod (N.shiftr c 6)) as Hm1.
  pose proof (land_mod (N.shiftr c 12)) as Hm2.
  assert (Hr : N.land c 0x3F < 64) by (rewrite Hm0; euclid).
  assert (Hy : N.land (N.shiftr c 6) 0x3F < 64) by (rewrite Hm1; euclid).
  assert (Hw : N.land (N.shiftr c 12) 0x3F < 64) by (rewrite Hm2; euclid).
  destruct (continuation_byte _ Hr) as [Hr1 Hr2].
  destruct (continuation_byte _ Hy) as [Hy1 Hy2].
  destruct (continuation_byte _ Hw) as [Hw1 Hw2].
  pose proof (is_continuation_byte _ Hr) as Hrc.
  pose proof (is_continuation_byte _ Hy) as Hyc.
  pose proof (is_continuation_byte _ Hw) as Hwc.
  destruct (c <? 0x80) eqn:H1.
  { intros [= <-]. apply N.ltb_lt in H1.
    change ([byte_of_N c] ++ more) with (byte_of_N c :: more).
    rewrite utf8_decode_1; rewrite to_N_byte_of_N by lia; [reflexivity | lia]. }
  apply N.ltb_ge in H1.
  destruct (c <? 0x800) eqn:H2.
  { intros [= <-]. apply N.ltb_lt in H2.
    assert (Hx : N.shiftr c 6 < 32) by (rewrite Hs6; euclid).
    assert (Hlo : 2 <= N.shiftr c 6) by (rewrite Hs6; euclid).
    destruct (lead_byte_2 _ Hx) as [Hl1 Hl2].
    rewrite Hl1, Hr1.
    change ([?a; ?b] ++ more) with (a :: b :: more).
    rewrite utf8_decode_2; rewrite !to_N_byte_of_N by lia;
      [ | lia | exact Hrc].
    rewrite Hl2, Hr2. now rewrite split_low_bits. }
  apply N.ltb_ge in H2.
  destruct (c <? 0x10000) eqn:H3.
  { destruct ((0xD800 <=? c) && (c <? 0xE000)) eqn:Hsur; [discriminate | ].
    intros [= <-]. apply N.ltb_lt in H3.
    assert (Hnot : ~ (0xD800 <= c /\ c < 0xE000)).
    { intros [Ha Hb]. apply N.leb_le in Ha. apply N.ltb_lt in Hb.
      rewrite Ha, Hb in Hsur. discriminate. }
    assert (Hx : N.shiftr c 12 < 16) by (rewrite Hs12; euclid).
    destruct (lead_byte_3 _ Hx) as [Hl1 Hl2].
    rewrite Hl1, Hy1, Hr1.
    change ([?a; ?b; ?d] ++ more) with (a :: b :: d :: more).
    rewrite utf8_decode_3; rewrite !to_N_byte_of_N by lia;
      [ | lia | exact Hyc | | exact Hrc].
    - rewrite Hl2, Hy2, Hr2. now rewrite merge_bits_3.
    - destruct (0x80 + N.land (N.shiftr c 6) 0x3F <? 0xA0) eqn:Hlow.
      + apply N.ltb_lt in Hlow. apply N.eqb_neq.
        rewrite Hm1, Hs6 in Hlow. rewrite Hs12. euclid.
      + apply N.ltb_ge in Hlow. apply N.eqb_neq.
        rewrite Hm1, Hs6 in Hlow. rewrite Hs12. euclid. }
  apply N.ltb_ge in H3.
  destruct (c <? 0x110000) eqn:H4; [ | discriminate].
  intros [= <-]. apply N.ltb_lt in H4.
  assert (Hx : N.shiftr c 18 < 8) by (rewrite Hs18; euclid).
  assert (Hx4 : N.shiftr c 18 <= 4) by (rewrite Hs18; euclid).
  destruct (lead_byte_4 _ Hx) as [Hl1 Hl2].
  rewrite Hl1, Hw1, Hy1, Hr1.
  change ([?a; ?b; ?d; ?f] ++ more) with (a :: b :: d :: f :: more).
  rewrite utf8_decode_4; rewrite !to_N_byte_of_N by lia;
    [ | lia | exact Hwc | | exact Hyc | exact Hrc].
  - rewrite Hl2, Hw2, Hy2, Hr2. now rewrite merge_bits_4.
  - destruct (0x80 + N.land (N.shiftr c 12) 0x3F <? 0x90) eqn:Hlow.
    + apply N.ltb_lt in Hlow. apply N.eqb_neq.
      rewrite Hm2, Hs12 in Hlow. rewrite Hs18. euclid.
    + apply N.ltb_ge in Hlow. apply N.eqb_neq.
      rewrite Hm2, Hs12 in Hlow. rewrite Hs18. euclid.
Qed.

Lemma utf8_decode_encode (errors : Errors) (s : str) :
  forall data, utf8_encode s = Some data -> utf8_decode errors data = s.
Proof.
  induction s as [ | c s IH]; simpl; intros data.
  - now intros [= <-].
  - destruct (utf8_encode_cp c) as [bs | ] eqn:Hc; [ | discriminate].
    destruct (utf8_encode s) as [bs' | ]; [ | discriminate].
    intros [= <-]. rewrite (utf8_decode_encode_cp errors c bs bs' Hc).
    now rewrite (IH bs').
Qed.

Lemma universal_newlines_id (s : str) :
  CR ∉ s -> universal_newlines s = s.
Proof.
  induction s as [ | c s IH]; simpl; intros Hcr; [reflexivity | ].
  apply not_elem_of_cons in Hcr as [Hc Hs].
  destruct (c =? CR) eqn:Heq; [apply N.eqb_eq in Heq; congruence | ].
  now rewrite IH.
Qed.

(** ** Running the monad *)

#[global] Arguments lit : simpl never.
#[global] Arguments strip : simpl never.
#[global] Arguments startswith : simpl never.
#[global] Arguments endswith : simpl never.
#[global] Arguments str_of_int : simpl never.
#[global] Arguments splitext : simpl never.
#[global] Arguments lower : simpl never.
#[global] Arguments join : simpl never.
#[global] Arguments split_on : simpl never.
#[global] Arguments utf8_decode : simpl never.
#[global] Arguments utf8_encode : simpl never.
#[global] Arguments universal_newlines : simpl never.
#[global] Arguments slice_to : simpl never.
#[global] Arguments len : simpl never.

(** Unfold the monad's operations and compute. *)
Ltac run :=
  unfold try_except, sys_exit, raise, print, modify, get_state, lift_result,
    mbind, M_bind, mret, M_ret in *;
  simpl in *.

Lemma state_eq (st st' : State) :
  console st = console st' -> files st = files st' ->
  installed st = installed st' -> llm_calls st = llm_calls st' -> st = st'.
Proof. destruct st, st'; simpl; intros; subst; reflexivity. Qed.

Lemma set_console_nil (st : State) : set_console (fun out => out ++ []) st = st.
Proof. apply state_eq; simpl; auto using app_nil_r. Qed.

(** ** Python strings *)



(** [lstrip] removes a prefix of whitespace, and what is left does not
    start with whitespace. *)
Lemma lstrip_spec (s : str) :
  exists pre,
    s = pre ++ lstrip s
    /\ forallb isspace pre = true
    /\ (forall c rest, lstrip s = c :: rest -> isspace c = false).
Proof.
  induction s as [ | c s (pre & Hs & Hpre & Hhead)]; simpl.
  - exists []. repeat split; auto. discriminate.
  - destruct (isspace c) eqn:Hc.
    + exists (c :: pre). simpl. rewrite Hc, Hpre.
      repeat split; auto. congruence.
    + exists []. simpl. repeat split; auto. congruence.
Qed.

(** [strip] keeps a middle part of the text: what it removes on both sides
    is whitespace, and what it keeps neither starts nor ends with
    whitespace. *)
Lemma strip_spec (s : str) :
  exists pre post,
    s = pre ++ strip s ++ post
    /\ forallb isspace pre = true
    /\ forallb isspace post = true
    /\ (forall c rest, strip s = c :: rest -> isspace c = false)
    /\ (forall c front, strip s = front ++ [c] -> isspace c = false).
Proof.
  unfold strip, rstrip.
  destruct (lstrip_spec (reverse s)) as (tail & Hrev & Htail & Hlast).
  destruct (lstrip_spec (reverse (lstrip (reverse s))))
    as (pre & Hmid & Hpre & Hhead).
  exists pre, (reverse tail).
  split; [ | split; [exact Hpre | split; [ | split; [exact Hhead | ] ] ] ].
  - rewrite app_assoc, <- Hmid, <- reverse_app, <- Hrev.
    symmetry. apply reverse_involutive.
  - rewrite forallb_forall in *. intros c Hc. apply Htail.
    apply list_elem_of_In. apply list_elem_of_In in Hc.
    exact (proj1 (elem_of_reverse c tail) Hc).
  - intros c front Hend. rewrite Hend in Hmid.
    apply (f_equal reverse) in Hmid.
    rewrite reverse_involutive, app_assoc, reverse_snoc in Hmid.
    eapply Hlast. exact Hmid.
Qed.

Section Proofs.

Context (env : Env).

#[local] Opaque lit.

(** ** The summarization call *)

Lemma summarize_text_run (text : str) (query : option str) (st : State) :
  let request := chat_request text query in
  let answer :=
    api_answer (chat_completions_create env (llm_calls st) request) in
  summarize_text env text query st =
  (Ret answer.1,
   set_console (fun out => out ++ answer.2)
     (set_llm_calls (fun calls => calls ++ [request]) st)).
Proof.
  intros request answer. subst answer request.
  unfold summarize_text, create_completion, api_answer. run.
  destruct (chat_completions_create env (llm_calls st) _)
    as [msg | [ | [content | ] choices ] ]; simpl; try reflexivity.
  now rewrite set_console_nil.
Qed.

(** ** One source of the Map loop *)

Lemma map_source_run (source file_text : str) (st : State) :
  let request := chat_request (submitted_text file_text)
                   (Some MAP_INSTRUCTION) in
  let answer :=
    api_answer (chat_completions_create env (llm_calls st) request) in
  let warned :=
    if (MAX_CHARS <? len file_text)%Z
    then set_console (fun out => out ++ [truncation_warning source file_text])
           st
    else st in
  map_source env source file_text st =
  (Ret (summary_record source answer.1),
   set_console (fun out => out ++ answer.2)
     (set_llm_calls (fun calls => calls ++ [request]) warned)).
Proof.
  intros request answer warned. subst request answer warned.
  unfold map_source, submitted_text, truncation_warning, MAP_INSTRUCTION.
  destruct (MAX_CHARS <? len file_text)%Z; run;
    rewrite summarize_text_run; reflexivity.
Qed.

(** ** Installing packages *)

Lemma install_and_import_frame (package : str) (import_name : option str)
  (st : State) :
  exists r st',
    install_and_import env package import_name st = (r, st')
    /\ files st' = files st /\ llm_calls st' = llm_calls st
    /\ (r = Ret tt \/ exists msg, r = Raise (Exception msg)).
Proof.
  unfold install_and_import, import_module, pip_install_call. run.
  destruct (importable env _ || bool_decide (_ ∈ installed st)) eqn:Hhere;
    simpl.
  { eexists _, _. split; [reflexivity | ]. auto. }
  destruct (pip_install env package) as [msg | [ | ] ]; simpl.
  - eexists _, _. split; [reflexivity | ]. simpl. eauto.
  - destruct (importable env _ || bool_decide (_ ∈ _ :: installed st));
      simpl; eexists _, _; (split; [reflexivity | ]); simpl; eauto.
  - rewrite Hhere. simpl. eexists _, _. split; [reflexivity | ].
    simpl. eauto.
Qed.

Lemma installs_consistent_fresh (fs : gmap str bytes) :
  installs_consistent env (fresh fs).
Proof. intros name Hin. simpl in Hin. inversion Hin. Qed.

Lemma install_and_import_consistent (package : str)
  (import_name : option str) (st : State) :
  script_package (or_default import_name package) = package ->
  installs_consistent env st ->
  exists st',
    install_and_import env package import_name st =
      ((install_and_import env package import_name (fresh (files st))).1, st')
    /\ files st' = files st /\ llm_calls st' = llm_calls st
    /\ installs_consistent env st'.
Proof.
  intros Hpkg Hok.
  unfold install_and_import, import_module, pip_install_call. run.
  set (name := or_default import_name package) in *.
  destruct (importable env name) eqn:Himp; simpl.
  { eexists. split; [reflexivity | ]. auto. }
  destruct (bool_decide (name ∈ installed st)) eqn:Hin; simpl.
  - apply bool_decide_eq_true in Hin. pose proof (Hok name Hin) as Hpip.
    rewrite Hpkg in Hpip. rewrite Hpip. simpl.
    rewrite bool_decide_eq_true_2 by (constructor). simpl.
    eexists. split; [reflexivity | ]. auto.
  - destruct (pip_install env package) as [msg | [ | ] ] eqn:Hpip; simpl.
    + eexists. split; [reflexivity | ]. simpl. auto.
    + rewrite !bool_decide_eq_true_2 by (constructor). simpl.
      eexists. split; [reflexivity | ]. simpl.
      repeat split; auto.
      intros n Hn. simpl in Hn. apply elem_of_cons in Hn as [-> | Hn].
      * now rewrite Hpkg.
      * now apply Hok.
    + rewrite Hin. simpl.
      eexists. split; [reflexivity | ]. simpl. auto.
Qed.

(** ** The source loader *)

Lemma read_binary_run (path : str) (st : State) :
  read_binary env path st =
  match files st !! path with
  | Some data => (Ret data, st)
  | None => (Raise (Exception (read_error env path)), st)
  end.
Proof. unfold read_binary. run. destruct (files st !! path); reflexivity. Qed.

Lemma read_text_run (path : str) (st : State) :
  read_text env path st =
  match files st !! path with
  | Some data => (Ret (universal_newlines (utf8_decode ErrIgnore data)), st)
  | None => (Raise (Exception (read_error env path)), st)
  end.
Proof.
  unfold read_text. run. rewrite read_binary_run.
  destruct (files st !! path); reflexivity.
Qed.

(** A branch of the loader that needs a package: install, then read. *)
Lemma install_then_read (package : str) (import_name : option str)
  (cont : M str) (k : gmap str bytes -> str + str) (warning : str -> str)
  (st : State) :
  script_package (or_default import_name package) = package ->
  (forall s, cont s = (match k (files s) with
                       | inl msg => Raise (Exception msg)
                       | inr text => Ret text
                       end, s)) ->
  let branch :=
    try_except (install_and_import env package import_name ≫= fun _ => cont)
      (fun e => print (warning e) ≫= fun _ => mret []) in
  exists text st',
    branch st = (Ret text, st')
    /\ files st' = files st /\ llm_calls st' = llm_calls st
    /\ (installs_consistent env st ->
        text = match branch (fresh (files st)) with
               | (Ret text0, _) => text0
               | (Raise _, _) => []
               end
        /\ installs_consistent env st').
Proof.
  intros Hpkg Hcont branch. subst branch.
  destruct (install_and_import_frame package import_name (fresh (files st)))
    as (r0 & st0 & Hrun0 & Hfiles0 & _ & Hr0).
  destruct (install_and_import_frame package import_name st)
    as (r & st1 & Hrun & Hfiles & Hcalls & Hr).
  assert (Hsame : installs_consistent env st ->
                  r = r0 /\ installs_consistent env st1).
  { intros Hok.
    destruct (install_and_import_consistent package import_name st Hpkg Hok)
      as (st1' & Hrun' & _ & _ & Hok').
    rewrite Hrun0 in Hrun'. rewrite Hrun in Hrun'. simpl in Hrun'.
    inversion Hrun'; subst. auto. }
  run. rewrite Hrun, Hrun0.
  destruct Hr as [-> | [msg ->] ].
  - rewrite Hcont. rewrite Hfiles.
    destruct (k (files st)) as [msg | text] eqn:Hk.
    + eexists _, _. split; [reflexivity | ]. simpl.
      repeat split; auto.
      all: destruct (Hsame H) as [<- Hok1]; auto.
      rewrite Hcont, Hfiles0. simpl. now rewrite Hk.
    + eexists _, _. split; [reflexivity | ]. simpl.
      repeat split; auto.
      all: destruct (Hsame H) as [<- Hok1]; auto.
      rewrite Hcont, Hfiles0. simpl. now rewrite Hk.
  - eexists _, _. split; [reflexivity | ]. simpl.
    repeat split; auto.
    all: destruct (Hsame H) as [<- Hok1]; auto.
Qed.

(** [load_source] always returns a text; it only prints and installs;
    and from a consistent state the text is the one the files determine. *)
Lemma load_source_run (source : str) (st : State) :
  exists text st',
    load_source env source st = (Ret text, st')
    /\ files st' = files st /\ llm_calls st' = llm_calls st
    /\ (installs_consistent env st ->
        text = loaded_text env (files st) source
        /\ installs_consistent env st').
Proof.
  assert (Htext : exists text st',
    try_except (read_text env source)
      (fun e => print (lit "Warning: Could not load source '" ++ source
                         ++ lit "'. Error: " ++ e) ≫= fun _ => mret [])
      st = (Ret text, st')
    /\ files st' = files st /\ llm_calls st' = llm_calls st
    /\ (installs_consistent env st ->
        text = match try_except (read_text env source)
                       (fun e => print (lit "Warning: Could not load source '"
                                          ++ source ++ lit "'. Error: " ++ e)
                                   ≫= fun _ => mret [])
                       (fresh (files st)) with
               | (Ret text0, _) => text0
               | (Raise _, _) => []
               end
        /\ installs_consistent env st')).
  { run. rewrite !read_text_run. simpl.
    destruct (files st !! source); simpl;
      eexists _, _; (split; [reflexivity | ]); simpl;
      (repeat split; auto); intros Hok; exact Hok. }
  unfold loaded_text, load_source.
  destruct (startswith source (lit "http://")
            || startswith source (lit "https://")) eqn:Hurl.
  { run.
    destruct (requests_get env source) as [msg | code err text]; simpl.
    - eexists _, _. split; [reflexivity | ]. simpl. auto.
    - destruct ((400 <=? code)%Z && (code <? 600)%Z); simpl;
        eexists _, _; (split; [reflexivity | ]); simpl; auto. }
  destruct (endswith source (lit ".pdf")) eqn:Hpdf.
  { apply (install_then_read (lit "PyPDF2") None _
             (fun fs => match fs !! source with
                        | None => inl (read_error env source)
                        | Some data =>
                            match pdf_pages env data with
                            | inl msg => inl msg
                            | inr pages =>
                                inr (join NL ((fun page => or_default page [])
                                                <$> pages))
                            end
                        end)
             (fun e => lit "Warning: Could not load source '" ++ source
                         ++ lit "'. Error: " ++ e)).
    - reflexivity.
    - intros s. run. rewrite read_binary_run.
      destruct (files s !! source) as [data | ]; [ | reflexivity].
      destruct (pdf_pages env data); reflexivity. }
  destruct (endswith source (lit ".docx")) eqn:Hdocx.
  { apply (install_then_read (lit "python-docx") (Some (lit "docx")) _
             (fun fs => match fs !! source with
                        | None => inl (read_error env source)
                        | Some data =>
                            match docx_paragraphs env data with
                            | inl msg => inl msg
                            | inr paragraphs => inr (join NL paragraphs)
                            end
                        end)
             (fun e => lit "Warning: Could not load source '" ++ source
                         ++ lit "'. Error: " ++ e)).
    - reflexivity.
    - intros s. run. rewrite read_binary_run.
      destruct (files s !! source) as [data | ]; [ | reflexivity].
      destruct (docx_paragraphs env data); reflexivity. }
  destruct (endswith source (lit ".csv") || endswith source (lit ".txt"));
    exact Htext.
Qed.

(** ** The Map loop *)

Lemma installs_consistent_ext (st st' : State) :
  installed st' = installed st ->
  installs_consistent env st -> installs_consistent env st'.
Proof. unfold installs_consistent. intros ->. auto. Qed.

(** The loop returns the accumulator extended with one record per kept
    source; it sends one Map request per record and writes no file. *)
Lemma map_stage_run (srcs : list str) :
  forall (acc : list str) (st : State),
  exists recs st' calls,
    map_stage env srcs acc st = (Ret (acc ++ recs), st')
    /\ files st' = files st
    /\ llm_calls st' = llm_calls st ++ calls
    /\ length calls = length recs
    /\ Forall (fun c => exists text,
                 c = chat_request text (Some MAP_INSTRUCTION)) calls
    /\ (installs_consistent env st ->
        Forall2 (fun source record =>
                   exists summary, record = summary_record source summary)
          (List.filter (fun s => nonblank (loaded_text env (files st) s)) srcs)
          recs
        /\ installs_consistent env st').
Proof.
  induction srcs as [ | source rest IH]; intros acc st.
  - exists [], st, []. simpl. rewrite !app_nil_r.
    repeat split; auto.
  - simpl. run.
    set (st0 := set_console _ st).
    destruct (load_source_run source st0)
      as (text & st1 & Hload & Hfiles1 & Hcalls1 & Hok1).
    rewrite Hload. fold (nonblank text).
    assert (Hf0 : files st0 = files st) by reflexivity.
    assert (Hc0 : llm_calls st0 = llm_calls st) by reflexivity.
    destruct (nonblank text) eqn:Hkeep; simpl.
    + rewrite map_source_run.
      set (answer := api_answer _).
      set (st2 := set_console _ (set_llm_calls _ _)).
      destruct (IH (acc ++ [summary_record source answer.1]) st2)
        as (recs & st' & calls & Hrun & Hfiles & Hcalls & Hlen & Hreq & Hok).
      assert (Hf2 : files st2 = files st1).
      { subst st2. simpl. now destruct (MAX_CHARS <? len text)%Z. }
      assert (Hc2 : llm_calls st2 =
                    llm_calls st1
                    ++ [chat_request (submitted_text text)
                          (Some MAP_INSTRUCTION)]).
      { subst st2. simpl. now destruct (MAX_CHARS <? len text)%Z. }
      assert (Hi2 : installed st2 = installed st1).
      { subst st2. simpl. now destruct (MAX_CHARS <? len text)%Z. }
      exists (summary_record source answer.1 :: recs), st',
        (chat_request (submitted_text text) (Some MAP_INSTRUCTION) :: calls).
      rewrite Hrun, <- app_assoc. split; [reflexivity | ].
      split; [congruence | ].
      split; [rewrite Hcalls, Hc2, Hcalls1, Hc0, <- app_assoc; reflexivity | ].
      split; [simpl; congruence | ].
      split; [constructor; eauto | ].
      intros Hst. destruct Hok1 as [Htext Hst1]; [exact Hst | ].
      destruct Hok as [Hrecs Hst'];
        [eapply installs_consistent_ext; eauto | ].
      split; [ | exact Hst'].
      rewrite Hf0 in Htext. rewrite <- Htext, Hkeep.
      constructor; [eauto | ].
      rewrite Hf2, Hfiles1, Hf0 in Hrecs. exact Hrecs.
    + set (st2 := set_console _ st1).
      destruct (IH acc st2)
        as (recs & st' & calls & Hrun & Hfiles & Hcalls & Hlen & Hreq & Hok).
      exists recs, st', calls.
      split; [exact Hrun | ].
      split; [rewrite Hfiles; simpl; congruence | ].
      split; [rewrite Hcalls; simpl; congruence | ].
      split; [exact Hlen | ].
      split; [exact Hreq | ].
      intros Hst. destruct Hok1 as [Htext Hst1]; [exact Hst | ].
      destruct Hok as [Hrecs Hst']; [exact Hst1 | ].
      split; [ | exact Hst'].
      rewrite Hf0 in Htext. rewrite <- Htext, Hkeep.
      simpl in Hrecs. rewrite Hfiles1, Hf0 in Hrecs. exact Hrecs.
Qed.

(** ** The output writer *)









Lemma save_output_unsupported (result_text output_path : str) (st : State) :
  supported_extension (output_extension output_path) = false ->
  save_output env result_text output_path st =
  (Ret tt,
   set_console (fun out => out ++ [unsupported_format_error output_path]) st).
Proof.
  unfold supported_extension, output_extension, save_output,
    unsupported_format_error.
  intros H. apply orb_false_elim in H as [H Hcsv].
  apply orb_false_elim in H as [H Hdocx].
  apply orb_false_elim in H as [Htxt Hpdf].
  rewrite Htxt, Hpdf, Hdocx, Hcsv. run. reflexivity.
Qed.

Lemma save_output_txt (result_text output_path : str) (data : bytes)
  (st : State) :
  output_extension output_path = lit ".txt" ->
  write_error env output_path = None ->
  utf8_encode result_text = Some data ->
  save_output env result_text output_path st =
  (Ret tt,
   set_console (fun out => out ++ [saved_message output_path])
     (set_files (fun fs => <[output_path := data]> fs) st)).
Proof.
  unfold output_extension, save_output, saved_message, open_for_writing,
    write_text, append_bytes.
  intros -> Hopen Hdata. rewrite Hopen, Hdata.
  unfold str_eqb. rewrite bool_decide_eq_true_2 by reflexivity. run.
  f_equal. apply state_eq; simpl; try reflexivity.
  rewrite lookup_insert_eq. simpl. now rewrite insert_insert_eq.
Qed.

(** ** The whole run *)


Lemma main_run (cl : CommandLine) (st st1 : State) (summaries : list str) :
  positionals cl <> [] ->
  map_stage env (positionals cl) [] st = (Ret summaries, st1) ->
  main env cl st =
  if bool_decide (summaries = []) then
    (Raise (SystemExit 1),
     set_console
       (fun out => out ++ [lit "No usable summaries produced. Exiting."]) st1)
  else
    let request := chat_request (join NL summaries) (opt_query cl) in
    let o := chat_completions_create env (llm_calls st1) request in
    let st2 := reported (api_answer o).1 (summarized request o st1) in
    match opt_output cl with
    | Some output_path =>
        if truthy output_path
        then save_output env (api_answer o).1 output_path st2
        else (Ret tt, st2)
    | None => (Ret tt, st2)
    end.
Proof.
  intros Hsrc Hmap. unfold main, parse_args.
  destruct (positionals cl) as [ | s0 srcs] eqn:Hpos; [congruence | ].
  run. rewrite Hmap.
  destruct (bool_decide (summaries = [])); [reflexivity | ].
  rewrite summarize_text_run. simpl.
  set (o := chat_completions_create env _ _).
  set (st2 := set_console _ (set_console _ (set_console _ _))).
  assert (Hst2 : st2 = reported (api_answer o).1
                         (summarized (chat_request (join NL summaries)
                                        (opt_query cl)) o st1)).
  { subst st2. unfold reported, summarized.
    apply state_eq; simpl; try reflexivity.
    now rewrite <- !app_assoc. }
  rewrite Hst2.
  destruct (opt_output cl) as [output_path | ];
    [destruct (truthy output_path) | ]; reflexivity.
Qed.

(** What a run of the Map loop from an empty accumulator gives. *)
Lemma map_stage_result (srcs : list str) (st st1 : State)
  (summaries : list str) :
  map_stage env srcs [] st = (Ret summaries, st1) ->
  exists calls,
    files st1 = files st
    /\ llm_calls st1 = llm_calls st ++ calls
    /\ length calls = length summaries
    /\ Forall (fun c => exists text,
                 c = chat_request text (Some MAP_INSTRUCTION)) calls.
Proof.
  intros Hmap.
  destruct (map_stage_run srcs [] st)
    as (recs & st' & calls & Hrun & Hfiles & Hcalls & Hlen & Hreq & _).
  rewrite Hmap in Hrun. simpl in Hrun. inversion Hrun; subst.
  exists calls. auto.
Qed.

(** ** The claims *)

(** C1. The Map loop returns, and its records are, in input order, one per
    source whose loaded text is not blank: the sources whose text is blank
    after stripping (or could not be loaded) contribute no record.  This
    holds for every source list, whatever each load does. *)
Theorem map_stage_records (srcs : list str) (st : State) :
  installs_consistent env st ->
  let kept :=
    List.filter (fun s => nonblank (loaded_text env (files st) s)) srcs in
  exists summaries st',
    map_stage env srcs [] st = (Ret summaries, st')
    /\ Forall2 (fun source record =>
                  exists summary, record = summary_record source summary)
         kept summaries
    /\ length summaries = length kept.
Proof.
  intros Hok kept.
  destruct (map_stage_run srcs [] st)
    as (recs & st' & calls & Hrun & _ & _ & _ & _ & Hrecs).
  destruct (Hrecs Hok) as [Hall _].
  exists recs, st'. split; [exact Hrun | ]. split; [exact Hall | ].
  symmetry. eapply Forall2_length. exact Hall.
Qed.






(** The handler of [load_source], around a plain read. *)
Lemma read_text_or_warn (source : str) (st : State) :
  try_except (read_text env source)
    (fun e => print (lit "Warning: Could not load source '" ++ source
                       ++ lit "'. Error: " ++ e) ≫= fun _ => mret [])
    st
  = match files st !! source with
    | Some data =>
        (Ret (universal_newlines (utf8_decode ErrIgnore data)), st)
    | None =>
        (Ret [], set_console (fun out => out ++ [load_warning env source]) st)
    end.
Proof.
  unfold load_warning. run. rewrite read_text_run.
  destruct (files st !! source); reflexivity.
Qed.

(** The tests of the dispatch, for a plain source. *)
Lemma plain_text_source_tests (source : str) :
  plain_text_source source = true ->
  startswith source (lit "http://") = false
  /\ startswith source (lit "https://") = false
  /\ endswith source (lit ".pdf") = false
  /\ endswith source (lit ".docx") = false.
Proof.
  unfold plain_text_source. intros H.
  apply andb_prop in H as [H Hdocx]. apply andb_prop in H as [H Hpdf].
  apply andb_prop in H as [Hhttp Hhttps].
  now apply negb_true_iff in Hdocx, Hpdf, Hhttp, Hhttps.
Qed.

(** A plain source that exists loads as its decoded content. *)
Lemma load_source_existing_file (source : str) (data : bytes) (st : State) :
  plain_text_source source = true ->
  files st !! source = Some data ->
  load_source env source st
  = (Ret (universal_newlines (utf8_decode ErrIgnore data)), st).
Proof.
  intros Hplain Hdata.
  destruct (plain_text_source_tests source Hplain)
    as (Hhttp & Hhttps & Hpdf & Hdocx).
  unfold load_source. rewrite Hhttp, Hhttps, Hpdf, Hdocx. simpl.
  destruct (endswith source (lit ".csv") || endswith source (lit ".txt"));
    rewrite read_text_or_warn, Hdata; reflexivity.
Qed.

(** C6 (amended). For a source that is not a URL and does not end in
    ".pdf" or ".docx", the loader reads the file as UTF-8 and drops the
    bytes that do not decode (it does not replace them), and returns the
    decoded text with "\r\n" and "\r" read as "\n"; the state is left as it
    was.  When the file cannot be read it prints a warning and returns the
    empty text. *)
Theorem load_source_plain_text (source : str) (st : State) :
  plain_text_source source = true ->
  load_source env source st =
  match files st !! source with
  | Some data =>
      (Ret (universal_newlines (utf8_decode ErrIgnore data)), st)
  | None =>
      (Ret [], set_console (fun out => out ++ [load_warning env source]) st)
  end.
Proof.
  intros Hplain.
  destruct (plain_text_source_tests source Hplain)
    as (Hhttp & Hhttps & Hpdf & Hdocx).
  unfold load_source. rewrite Hhttp, Hhttps, Hpdf, Hdocx. simpl.
  (* both remaining branches read the file as text *)
  destruct (endswith source (lit ".csv") || endswith source (lit ".txt")).
  - apply read_text_or_warn.
  - apply read_text_or_warn.
Qed.

(** C7 (amended). In an iteration of the Map loop whose loaded text is
    kept, the record appended to the accumulator is
    "--- Summary of <source> ---\n<summary>\n", where <summary> is what
    [summarize_text] returned for the submitted text.  A record is
    appended whatever the summary is: when the Map call returns the empty
    string the record is "--- Summary of <source> ---\n\n". *)
Theorem map_stage_appends_record (source : str) (acc : list str)
  (st st1 : State) (text : str) :
  load_source env source
    (set_console (fun out => out ++ [lit "-> Processing: " ++ source]) st)
  = (Ret text, st1) ->
  nonblank text = true ->
  let warned :=
    if (MAX_CHARS <? len text)%Z
    then set_console (fun out => out ++ [truncation_warning source text]) st1
    else st1 in
  exists summary st',
    summarize_text env (submitted_text text) (Some MAP_INSTRUCTION) warned
    = (Ret summary, st')
    /\ map_stage env [source] acc st
       = (Ret (acc ++ [lit "--- Summary of " ++ source ++ lit " ---" ++ NL
                         ++ summary ++ NL]), st')
    /\ (summary = [] ->
        map_stage env [source] acc st
        = (Ret (acc ++ [lit "--- Summary of " ++ source ++ lit " ---" ++ NL
                          ++ NL]), st')).
Proof.
  intros Hload Hkeep warned. subst warned.
  rewrite summarize_text_run. eexists _, _. split; [reflexivity | ].
  assert (Hrun : map_stage env [source] acc st =
                 (Ret (acc ++ [lit "--- Summary of " ++ source ++ lit " ---"
                                 ++ NL
                                 ++ (api_answer
                                       (chat_completions_create env
                                          (llm_calls
                                             (if (MAX_CHARS <? len text)%Z
                                              then set_console
                                                     (fun out =>
                                                        out ++
                                                        [truncation_warning
                                                           source text]) st1
                                              else st1))
                                          (chat_request (submitted_text text)
                                             (Some MAP_INSTRUCTION)))).1
                                 ++ NL]),
                  set_console
                    (fun out =>
                       out ++
                       (api_answer
                          (chat_completions_create env
                             (llm_calls
                                (if (MAX_CHARS <? len text)%Z
                                 then set_console
                                        (fun out =>
                                           out ++
                                           [truncation_warning source text])
                                        st1
                                 else st1))
                             (chat_request (submitted_text text)
                                (Some MAP_INSTRUCTION)))).2)
                    (set_llm_calls
                       (fun calls =>
                          calls ++ [chat_request (submitted_text text)
                                      (Some MAP_INSTRUCTION)])
                       (if (MAX_CHARS <? len text)%Z
                        then set_console
                               (fun out =>
                                  out ++ [truncation_warning source text]) st1
                        else st1)))).
  { simpl. run. rewrite Hload. fold (nonblank text). rewrite Hkeep. simpl.
    rewrite map_source_run. unfold summary_record.
    destruct (MAX_CHARS <? len text)%Z; reflexivity. }
  split; [exact Hrun | ].
  intros Hempty. rewrite Hrun. simpl in *. rewrite Hempty. reflexivity.
Qed.


(** C10 (amended). An empty query is indistinguishable from no query: the
    request built for it is the one built for no query, with the question
    "Summarize the content", and the whole run is the same.  The fallback
    is in the Reduce call only: every Map call asks the fixed question
    "Summarize this file in detail.", whatever the query is. *)
Theorem empty_query_is_no_query (srcs : list str) (out : option str)
  (st : State) :
  (forall text,
      chat_request text (Some []) = chat_request text None
      /\ summarize_text env text (Some []) st = summarize_text env text None st
      /\ content <$> messages (chat_request text None)
         = [lit "You are a helpful assistant.";
            Spec.prompt text (lit "Summarize the content")])
  /\ main env {| positionals := srcs; opt_query := Some [];
                 opt_output := out |} st
     = main env {| positionals := srcs; opt_query := None;
                   opt_output := out |} st
  /\ exists summaries st1 map_calls,
       map_stage env srcs [] st = (Ret summaries, st1)
       /\ llm_calls st1 = llm_calls st ++ map_calls
       /\ Forall (fun c => exists text,
                    content <$> messages c
                    = [lit "You are a helpful assistant.";
                       Spec.prompt text
                         (lit "Summarize this file in detail.")])
            map_calls.
Proof.
  split; [ | split].
  - intros text. repeat split; reflexivity.
  - unfold main, parse_args. simpl. destruct srcs; reflexivity.
  - destruct (map_stage_run srcs [] st)
      as (recs & st1 & calls & Hrun & _ & Hcalls & _ & Hreq & _).
    exists recs, st1, calls. repeat split; auto.
    eapply Forall_impl; [exact Hreq | ].
    intros c [text ->]. exists text. reflexivity.
Qed.

End Proofs.

(** ** Writing text and csv files *)

Section Writer.

Context (env : Env).

Lemma write_csv_rows_run (path : str) (lines : list str) :
  forall (datas : list bytes) (st : State) (old : bytes),
    files st !! path = Some old ->
    Forall2 (fun line data =>
               utf8_encode (csv_row_text (csv_row_of_line line)) = Some data)
      lines datas ->
    write_csv_rows env path lines st =
    (Ret tt, set_files (fun fs => <[path := old ++ concat datas]> fs) st).
Proof.
  induction lines as [ | line rest IH]; intros datas st old Hold Hall;
    inversion Hall as [ | ? data ? datas' Hdata Hrest]; subst; simpl.
  - run. f_equal. apply state_eq; simpl; try reflexivity.
    rewrite app_nil_r. symmetry. now apply insert_id.
  - unfold write_text, append_bytes. rewrite Hdata. run.
    rewrite (IH datas' _ (old ++ data));
      [ | simpl; rewrite Hold; apply lookup_insert_eq | exact Hrest].
    f_equal. apply state_eq; simpl; try reflexivity.
    now rewrite insert_insert_eq, app_assoc.
Qed.

Lemma save_output_csv (result_text output_path : str) (datas : list bytes)
  (st : State) :
  output_extension output_path = lit ".csv" ->
  write_error env output_path = None ->
  Forall2 (fun line data =>
             utf8_encode (csv_row_text (csv_row_of_line line)) = Some data)
    (split_on LF result_text) datas ->
  save_output env result_text output_path st =
  (Ret tt,
   set_console (fun out => out ++ [saved_message output_path])
     (set_files (fun fs => <[output_path := concat datas]> fs) st)).
Proof.
  unfold output_extension, save_output, saved_message, open_for_writing.
  intros -> Hopen Hall. rewrite Hopen.
  change (str_eqb (lit ".csv") (lit ".txt")) with false.
  change (str_eqb (lit ".csv") (lit ".pdf")) with false.
  change (str_eqb (lit ".csv") (lit ".docx")) with false.
  change (str_eqb (lit ".csv") (lit ".csv")) with true.
  run.
  rewrite (write_csv_rows_run _ _ datas _ []);
    [ | simpl; apply lookup_insert_eq | exact Hall].
  simpl. f_equal. apply state_eq; simpl; try reflexivity.
  now rewrite insert_insert_eq.
Qed.

(** C8. A text written to a .txt path is stored as it is, as its UTF-8
    encoding, which decodes to the same text; loading the file back gives
    the identical string for every text without a carriage return, and so
    for "line1\nline2\nline3".  Written to a .csv path, that text gives
    three rows of one column each, holding the three lines as they are:
    the file is "line1\r\nline2\r\nline3\r\n". *)
Theorem save_output_three_lines (st : State) (txt_path csv_path : str) :
  output_extension txt_path = lit ".txt" ->
  plain_text_source txt_path = true ->
  write_error env txt_path = None ->
  output_extension csv_path = lit ".csv" ->
  write_error env csv_path = None ->
  (forall text data,
      utf8_encode text = Some data ->
      exists st',
        save_output env text txt_path st = (Ret tt, st')
        /\ files st' = <[txt_path := data]> (files st)
        /\ utf8_decode ErrIgnore data = text
        /\ (CR ∉ text ->
            load_source env txt_path st' = (Ret text, st')))
  /\ (exists st',
        save_output env Demo.three_lines txt_path st = (Ret tt, st')
        /\ load_source env txt_path st' = (Ret Demo.three_lines, st'))
  /\ csv_row_of_line <$> split_on LF Demo.three_lines
     = [ [lit "line1"]; [lit "line2"]; [lit "line3"] ]
  /\ (exists st',
        save_output env Demo.three_lines csv_path st = (Ret tt, st')
        /\ files st' =
           <[csv_path := byte_of_N <$> (lit "line1" ++ [CR; LF]
                                          ++ lit "line2" ++ [CR; LF]
                                          ++ lit "line3" ++ [CR; LF])]>
             (files st)).
Proof.
  intros Htxt Hplain Hopen Hcsv Hopen'.
  split; [ | split; [ | split] ].
  - intros text data Hdata.
    rewrite (save_output_txt env text txt_path data st Htxt Hopen Hdata).
    pose proof (utf8_decode_encode ErrIgnore text data Hdata) as Hback.
    eexists. split; [reflexivity | ]. split; [reflexivity | ].
    split; [exact Hback | ].
    intros Hcr.
    erewrite (load_source_existing_file env txt_path);
      [ | exact Hplain | simpl; apply lookup_insert_eq].
    now rewrite Hback, universal_newlines_id.
  - assert (Hdata : utf8_encode Demo.three_lines
                    = Some (Demo.ascii_bytes "line1" ++ ["010"%byte]
                              ++ Demo.ascii_bytes "line2" ++ ["010"%byte]
                              ++ Demo.ascii_bytes "line3"))
      by (vm_compute; reflexivity).
    rewrite (save_output_txt env _ txt_path _ st Htxt Hopen Hdata).
    eexists. split; [reflexivity | ].
    erewrite (load_source_existing_file env txt_path);
      [ | exact Hplain | simpl; apply lookup_insert_eq].
    reflexivity.
  - vm_compute. reflexivity.
  - rewrite (save_output_csv Demo.three_lines csv_path
               [Demo.ascii_bytes "line1" ++ ["013"; "010"]%byte;
                Demo.ascii_bytes "line2" ++ ["013"; "010"]%byte;
                Demo.ascii_bytes "line3" ++ ["013"; "010"]%byte]
               st Hcsv Hopen').
    + eexists. split; reflexivity.
    + change (split_on LF Demo.three_lines)
        with [lit "line1"; lit "line2"; lit "line3"].
      repeat constructor.
Qed.

End Writer.

(** ** The script on concrete inputs *)

(** Four sources, two of them with text: two records. *)
Lemma map_stage_records_witness :
  installs_consistent Demo.env Demo.home
  /\ exists summaries st',
       map_stage Demo.env
         (lit <$> ["a.txt"; "blank.txt"; "missing.pdf"; "bad.txt"]%string)
         [] Demo.home
       = (Ret summaries, st')
       /\ length summaries = 2%nat.
Proof.
  assert (Hok : installs_consistent Demo.env Demo.home)
    by apply installs_consistent_fresh.
  split; [exact Hok | ].
  destruct (map_stage_records Demo.env
              (lit <$> ["a.txt"; "blank.txt"; "missing.pdf"; "bad.txt"]%string)
              Demo.home Hok)
    as (summaries & st' & Hrun & _ & Hlen).
  exists summaries, st'. split; [exact Hrun | ].
  rewrite Hlen. vm_compute. reflexivity.
Defined.






(** C6, as stated, fails: a byte that is not UTF-8 is dropped, not
    replaced.  The file "a", 0xFF, "b" loads as "ab"; replacing would
    give "a", U+FFFD, "b". *)
Lemma load_source_drops_undecodable_bytes :
  plain_text_source (lit "bad.txt") = true
  /\ files Demo.home !! lit "bad.txt" = Some ["a"; "255"; "b"]%byte
  /\ (load_source Demo.env (lit "bad.txt") Demo.home).1 = Ret (lit "ab")
  /\ Spec.decode_replacing ["a"; "255"; "b"]%byte = [97; 65533; 98]
  /\ (load_source Demo.env (lit "bad.txt") Demo.home).1
     <> Ret (Spec.decode_replacing ["a"; "255"; "b"]%byte).
Proof.
  vm_compute. repeat split; try reflexivity. discriminate.
Qed.

(** The file with the byte 0xFF loads as "ab", and the state is kept. *)
Lemma load_source_plain_text_witness :
  plain_text_source (lit "bad.txt") = true
  /\ load_source Demo.env (lit "bad.txt") Demo.home
     = (Ret (lit "ab"), Demo.home).
Proof.
  assert (Hplain : plain_text_source (lit "bad.txt") = true)
    by (vm_compute; reflexivity).
  split; [exact Hplain | ].
  rewrite (load_source_plain_text Demo.env (lit "bad.txt") Demo.home Hplain).
  vm_compute. reflexivity.
Defined.

(** C7, as stated, fails: the record of a.txt summarized as "S" is
    "--- Summary of a.txt ---\nS\n", not "Summary of a.txt: S". *)
Lemma summary_record_is_not_the_stated_one :
  (map_stage Demo.env [lit "a.txt"] [] Demo.home).1
  = Ret [lit "--- Summary of a.txt ---" ++ NL ++ lit "S" ++ NL]
  /\ (map_stage Demo.env [lit "a.txt"] [] Demo.home).1
     <> Ret [Spec.summary_record (lit "a.txt") (lit "S")].
Proof.
  vm_compute. split; [reflexivity | discriminate].
Qed.

(** With the endpoint down the summary is empty, and the record of a.txt
    is still appended. *)
Lemma map_stage_appends_record_witness :
  load_source Demo.env_offline (lit "a.txt") (Demo.processing "a.txt")
  = (Ret (lit "Hello world"), Demo.processing "a.txt")
  /\ nonblank (lit "Hello world") = true
  /\ exists st',
       map_stage Demo.env_offline [lit "a.txt"] [] Demo.home
       = (Ret [lit "--- Summary of a.txt ---" ++ NL ++ NL], st').
Proof.
  assert (Hload : load_source Demo.env_offline (lit "a.txt")
                    (Demo.processing "a.txt")
                  = (Ret (lit "Hello world"), Demo.processing "a.txt"))
    by (vm_compute; reflexivity).
  assert (Hkeep : nonblank (lit "Hello world") = true)
    by (vm_compute; reflexivity).
  split; [exact Hload | ]. split; [exact Hkeep | ].
  destruct (map_stage_appends_record Demo.env_offline (lit "a.txt") []
              Demo.home (Demo.processing "a.txt") (lit "Hello world")
              Hload Hkeep)
    as (summary & st' & Hsum & _ & Hempty).
  exists st'. apply Hempty.
  vm_compute in Hsum. inversion Hsum. reflexivity.
Defined.

(** Written to out.txt and loaded back, the three lines are the same;
    written to out.csv they are three rows. *)
Lemma save_output_three_lines_witness :
  output_extension (lit "out.txt") = lit ".txt"
  /\ plain_text_source (lit "out.txt") = true
  /\ output_extension (lit "OUT.CSV") = lit ".csv"
  /\ (exists st',
        save_output Demo.env Demo.three_lines (lit "out.txt") (fresh ∅)
        = (Ret tt, st')
        /\ load_source Demo.env (lit "out.txt") st'
           = (Ret Demo.three_lines, st'))
  /\ (exists st',
        save_output Demo.env Demo.three_lines (lit "OUT.CSV") (fresh ∅)
        = (Ret tt, st')
        /\ utf8_decode ErrIgnore <$> files st' !! lit "OUT.CSV"
           = Some (lit "line1" ++ [CR; LF] ++ lit "line2" ++ [CR; LF]
                     ++ lit "line3" ++ [CR; LF])).
Proof.
  assert (Htxt : output_extension (lit "out.txt") = lit ".txt")
    by (vm_compute; reflexivity).
  assert (Hplain : plain_text_source (lit "out.txt") = true)
    by (vm_compute; reflexivity).
  assert (Hcsv : output_extension (lit "OUT.CSV") = lit ".csv")
    by (vm_compute; reflexivity).
  destruct (save_output_three_lines Demo.env (fresh ∅) (lit "out.txt")
              (lit "OUT.CSV") Htxt Hplain eq_refl Hcsv eq_refl)
    as (_ & Hback & _ & st' & Hsave & Hfiles).
  repeat split; try assumption.
  exists st'. split; [exact Hsave | ].
  rewrite Hfiles. vm_compute. reflexivity.
Defined.


(** C10, as stated, fails for the Map calls: without a query, the Map
    call for a.txt asks "Summarize this file in detail.", not the default
    question "Summarize the content". *)
Lemma map_call_does_not_use_the_default_question :
  let cl := Demo.cmd ["a.txt"]%string None None in
  opt_query cl = None
  /\ llm_calls (Demo.after_map Demo.env ["a.txt"]%string)
     = [chat_request (lit "Hello world")
          (Some (lit "Summarize this file in detail."))]
  /\ llm_calls (Demo.after_map Demo.env ["a.txt"]%string)
     <> [chat_request (lit "Hello world") None]
  /\ content <$> messages (chat_request (lit "Hello world")
                             (Some (lit "Summarize this file in detail.")))
     <> [lit "You are a helpful assistant.";
         Spec.prompt (lit "Hello world") (lit "Summarize the content")].
Proof.
  vm_compute. repeat split; try reflexivity; discriminate.
Qed.

(** ** Further properties: the writer and its files *)

Section WriterFrame.

Context (env : Env).

#[local] Opaque lit.














Lemma open_for_writing_granted (path : str) (st : State) :
  write_error env path = None ->
  open_for_writing env path st
  = (Ret tt, set_files (fun fs => <[path := []]> fs) st).
Proof. unfold open_for_writing. now intros ->. Qed.



(** X10. A text that has no UTF-8 encoding, written to a .txt path: the file
    is created, or emptied, before the write fails, so it is left empty;
    the error is printed and [save_output] returns. *)
Theorem save_output_txt_unencodable (result_text output_path : str)
  (st : State) :
  output_extension output_path = lit ".txt" ->
  write_error env output_path = None ->
  utf8_encode result_text = None ->
  save_output env result_text output_path st =
  (Ret tt,
   set_console
     (fun out => out ++ [CROSS_EMOJI ++ lit " Error saving output to "
                           ++ output_path ++ lit ": "
                           ++ encode_error env result_text])
     (set_files (fun fs => <[output_path := []]> fs) st)).
Proof.
  unfold output_extension, save_output, write_text.
  intros -> Hopen Hnone. rewrite Hnone.
  change (str_eqb (lit ".txt") (lit ".txt")) with true. run.
  rewrite (open_for_writing_granted _ _ Hopen). reflexivity.
Qed.


End WriterFrame.

(** ** Further properties: blank texts and the Map loop *)

Lemma lstrip_all_space (s : str) :
  forallb isspace s = true -> lstrip s = [].
Proof.
  induction s as [ | c s IH]; simpl; [reflexivity | ].
  intros H. apply andb_prop in H as [Hc Hs]. rewrite Hc. now apply IH.
Qed.

(** The test of the Map loop keeps a text exactly when it has a character
    that is not whitespace. *)
Lemma nonblank_false_iff (text : str) :
  nonblank text = false <-> forallb isspace text = true.
Proof.
  unfold nonblank. split.
  - intros Hblank.
    destruct (strip_spec text) as (pre & post & Htext & Hpre & Hpost & _).
    destruct (strip text) as [ | c rest]; [ | discriminate].
    rewrite Htext. simpl. rewrite forallb_app. now rewrite Hpre, Hpost.
  - intros Hall. unfold strip, rstrip.
    rewrite (lstrip_all_space (reverse text)).
    + reflexivity.
    + rewrite forallb_forall in *. intros c Hc. apply Hall.
      apply list_elem_of_In. apply list_elem_of_In in Hc.
      exact (proj1 (elem_of_reverse c text) Hc).
Qed.

Lemma forallb_false_elem (P : N -> bool) (l : str) :
  forallb P l = false -> exists c, c ∈ l /\ P c = false.
Proof.
  induction l as [ | c l IH]; simpl; [discriminate | ].
  destruct (P c) eqn:Hc; simpl.
  - intros H. destruct (IH H) as (d & Hd & Hnot).
    exists d. split; [apply elem_of_cons; now right | exact Hnot].
  - intros _. exists c. split; [apply elem_of_cons; now left | exact Hc].
Qed.

(** X5. The test of the Map loop keeps a text exactly when it has a
    character that is not whitespace. *)
Theorem nonblank_iff (text : str) :
  nonblank text = true <-> exists c, c ∈ text /\ isspace c = false.
Proof.
  split.
  - intros Hkeep.
    destruct (forallb isspace text) eqn:Hall.
    + apply nonblank_false_iff in Hall. congruence.
    + now apply forallb_false_elem.
  - intros (c & Hc & Hnot).
    destruct (nonblank text) eqn:Hkeep; [reflexivity | ].
    apply nonblank_false_iff in Hkeep. rewrite forallb_forall in Hkeep.
    apply list_elem_of_In in Hc. rewrite (Hkeep c Hc) in Hnot. discriminate.
Qed.

Lemma join_all_space (parts : list str) :
  Forall (fun p => forallb isspace p = true) parts ->
  forallb isspace (join NL parts) = true.
Proof.
  induction 1 as [ | p rest Hp Hrest IH]; [reflexivity | ].
  unfold join; fold join. destruct rest as [ | q rest]; [exact Hp | ].
  rewrite !forallb_app, Hp, IH. reflexivity.
Qed.

Section MapLoop.

Context (env : Env).

#[local] Opaque lit.

Lemma map_stage_app_run (xs ys : list str) :
  forall (acc : list str) (st : State),
    map_stage env (xs ++ ys) acc st =
    match map_stage env xs acc st with
    | (Ret acc', st') => map_stage env ys acc' st'
    | (Raise e, st') => (Raise e, st')
    end.
Proof.
  induction xs as [ | source rest IH]; intros acc st; [reflexivity | ].
  simpl. run.
  destruct (load_source env source _) as [ [text | e] st1]; [ | reflexivity].
  destruct (negb (truthy (strip text))); simpl.
  - apply IH.
  - destruct (map_source env source text st1) as [ [record | e] st2];
      [apply IH | reflexivity].
Qed.

(** X6. The Map loop over a source list followed by another is the loop
    over the first, then the loop over the second from the accumulator
    and the state the first one left. *)
Theorem map_stage_app (xs ys : list str) (acc : list str) (st : State) :
  exists recs st',
    map_stage env xs acc st = (Ret (acc ++ recs), st')
    /\ map_stage env (xs ++ ys) acc st = map_stage env ys (acc ++ recs) st'.
Proof.
  destruct (map_stage_run env xs acc st) as (recs & st' & calls & Hrun & _).
  exists recs, st'. split; [exact Hrun | ].
  now rewrite map_stage_app_run, Hrun.
Qed.

(** X3. A PDF whose pages have no text, or only whitespace, is loaded as a
    blank text, and the Map loop skips it: it prints the two lines,
    appends no record and sends nothing to the model. *)
Theorem pdf_without_text_is_skipped (source : str) (data : bytes)
  (pages : list (option str)) (acc : list str) (st : State) :
  startswith source (lit "http://") = false ->
  startswith source (lit "https://") = false ->
  endswith source (lit ".pdf") = true ->
  importable env (lit "PyPDF2") = true ->
  files st !! source = Some data ->
  pdf_pages env data = inr pages ->
  Forall (fun page => forallb isspace (or_default page []) = true) pages ->
  map_stage env [source] acc st =
  (Ret acc,
   set_console
     (fun out => out ++ [lit "-> Processing: " ++ source;
                         WARNING_EMOJI ++ lit " No text found in " ++ source
                           ++ lit ", skipping."])
     st).
Proof.
  intros Hhttp Hhttps Hpdf Himp Hdata Hpages Hblank.
  assert (Hjoin : nonblank (join NL ((fun page => or_default page [])
                                       <$> pages)) = false).
  { apply nonblank_false_iff, join_all_space.
    apply Forall_fmap. exact Hblank. }
  unfold nonblank in Hjoin.
  simpl. unfold load_source, install_and_import, import_module, read_binary.
  rewrite Hhttp, Hhttps, Hpdf. run. rewrite Himp. simpl.
  rewrite Hdata. simpl. rewrite Hpages. simpl. rewrite Hjoin. simpl.
  f_equal. apply state_eq; simpl; try reflexivity.
  now rewrite <- app_assoc.
Qed.

(** X18. When the Reduce call fails, the run goes on with the empty
    answer: it prints the error and an empty result, and with a .txt
    output path it writes an empty file and reports it as saved; the exit
    status is 0. *)
Theorem main_failed_reduce_writes_empty_file (cl : CommandLine)
  (st st1 : State) (summaries : list str) (output_path msg : str) :
  positionals cl <> [] ->
  map_stage env (positionals cl) [] st = (Ret summaries, st1) ->
  summaries <> [] ->
  chat_completions_create env (llm_calls st1)
    (chat_request (join NL summaries) (opt_query cl)) = ApiRaise msg ->
  opt_output cl = Some output_path ->
  output_path <> [] ->
  output_extension output_path = lit ".txt" ->
  write_error env output_path = None ->
  exists st',
    main env cl st = (Ret tt, st')
    /\ files st' = <[output_path := []]> (files st)
    /\ console st' =
       console st1
       ++ [lit "Error during summarization: " ++ msg;
           NL ++ lit "--- Final Result ---"; [];
           lit "--------------------";
           NL ++ CHECK_EMOJI ++ lit " Output saved to: " ++ output_path].
Proof.
  intros Hsrc Hmap Hsome Hapi Hout Hpath Hext Hopen.
  destruct (map_stage_result env _ _ _ _ Hmap) as (calls & Hfiles & _).
  rewrite (main_run env cl st st1 summaries Hsrc Hmap).
  rewrite bool_decide_eq_false_2 by exact Hsome. simpl.
  rewrite Hout, Hapi. destruct output_path as [ | c path]; [congruence | ].
  simpl truthy. cbv iota. simpl api_answer. simpl fst.
  rewrite (save_output_txt env [] (c :: path) [] _ Hext Hopen eq_refl).
  eexists. split; [reflexivity | ]. simpl.
  split; [now rewrite Hfiles | ].
  unfold saved_message. now rewrite <- !app_assoc.
Qed.




End MapLoop.

(** ** Further properties: encodable text and csv rows *)

Lemma utf8_encode_cp_encodable (c : N) :
  encodable c = true <-> is_Some (utf8_encode_cp c).
Proof.
  unfold encodable, utf8_encode_cp.
  destruct (c <? 0x80) eqn:H1; destruct (c <? 0x800) eqn:H2;
    destruct (c <? 0x10000) eqn:H3; destruct (c <? 0x110000) eqn:H4;
    destruct (c <? 0xD800) eqn:H5; destruct (0xD800 <=? c) eqn:H6;
    destruct (c <? 0xE000) eqn:H7; destruct (0xE000 <=? c) eqn:H8;
    simpl; split; intros H; try discriminate; try (eexists; reflexivity);
    try reflexivity; try (destruct H; discriminate);
    repeat match goal with
           | H : (_ <? _) = true |- _ => apply N.ltb_lt in H
           | H : (_ <? _) = false |- _ => apply N.ltb_ge in H
           | H : (_ <=? _) = true |- _ => apply N.leb_le in H
           | H : (_ <=? _) = false |- _ => apply N.leb_gt in H
           end; lia.
Qed.

Lemma utf8_encode_encodable (s : str) :
  forallb encodable s = true <-> is_Some (utf8_encode s).
Proof.
  induction s as [ | c s IH]; unfold utf8_encode; fold utf8_encode; simpl.
  - split; [eexists; reflexivity | reflexivity].
  - rewrite andb_true_iff, IH, utf8_encode_cp_encodable.
    destruct (utf8_encode_cp c), (utf8_encode s); split;
      try (intros [ [? ?] [? ?] ]; discriminate);
      try (intros [? ?]; discriminate); try (eexists; reflexivity).
    intros _. split; eexists; reflexivity.
Qed.

Lemma utf8_encode_app (a b : str) (da db : bytes) :
  utf8_encode a = Some da -> utf8_encode b = Some db ->
  utf8_encode (a ++ b) = Some (da ++ db).
Proof.
  revert da. induction a as [ | c a IH]; intros da.
  - intros H Hb. change (utf8_encode []) with (Some (@nil byte)) in H.
    injection H as <-. exact Hb.
  - change (utf8_encode ((c :: a) ++ b))
      with (match utf8_encode_cp c, utf8_encode (a ++ b) with
            | Some bs, Some bs' => Some (bs ++ bs')
            | _, _ => None
            end).
    change (utf8_encode (c :: a))
      with (match utf8_encode_cp c, utf8_encode a with
            | Some bs, Some bs' => Some (bs ++ bs')
            | _, _ => None
            end).
    destruct (utf8_encode_cp c) as [bs | ]; [ | discriminate].
    destruct (utf8_encode a) as [da' | ]; [ | discriminate].
    intros [= <-] Hb. rewrite (IH da' eq_refl Hb).
    now rewrite app_assoc.
Qed.

Lemma split_on_cons (sep c : N) (s : str) :
  split_on sep (c :: s) =
  if c =? sep then [] :: split_on sep s
  else match split_on sep s with
       | [] => [[c]]
       | piece :: pieces => (c :: piece) :: pieces
       end.
Proof. reflexivity. Qed.

Lemma split_on_not_nil (sep : N) (s : str) : split_on sep s <> [].
Proof.
  destruct s as [ | c s]; [discriminate | ].
  rewrite split_on_cons.
  destruct (c =? sep); [discriminate | ].
  destruct (split_on sep s); discriminate.
Qed.

Lemma split_on_length (sep : N) (s : str) :
  length (split_on sep s) = S (count_char sep s).
Proof.
  unfold count_char. induction s as [ | c s IH]; [reflexivity | ].
  rewrite split_on_cons. simpl. rewrite (N.eqb_sym sep c).
  destruct (c =? sep); simpl; [now rewrite IH | ].
  destruct (split_on sep s); simpl in *; [discriminate | exact IH].
Qed.

Lemma split_on_pieces (P : N -> bool) (sep : N) (s : str) :
  forallb P s = true -> Forall (fun piece => forallb P piece = true)
                          (split_on sep s).
Proof.
  induction s as [ | c s IH]; [repeat constructor | ].
  simpl. intros H. apply andb_prop in H as [Hc Hs].
  specialize (IH Hs). rewrite split_on_cons.
  destruct (c =? sep); [constructor; [reflexivity | exact IH] | ].
  destruct (split_on sep s) as [ | piece pieces];
    [repeat constructor; simpl; now rewrite Hc | ].
  inversion IH; subst. constructor; [simpl; now rewrite Hc | assumption].
Qed.

Lemma split_on_no_separator (sep : N) (s : str) :
  Forall (fun piece => sep ∉ piece) (split_on sep s).
Proof.
  induction s as [ | c s IH]; [repeat constructor; apply not_elem_of_nil | ].
  rewrite split_on_cons.
  destruct (c =? sep) eqn:Hc;
    [constructor; [apply not_elem_of_nil | exact IH] | ].
  apply N.eqb_neq in Hc.
  destruct (split_on sep s) as [ | piece pieces].
  - repeat constructor. intros Hin. apply elem_of_cons in Hin as [-> | Hin];
      [congruence | now apply not_elem_of_nil in Hin].
  - inversion IH; subst. constructor; [ | assumption].
    intros Hin. apply elem_of_cons in Hin as [-> | Hin]; [congruence | auto].
Qed.

(** Joining the pieces of a split with the separator gives the text
    back. *)
Lemma join_split_on (sep : N) (s : str) : join [sep] (split_on sep s) = s.
Proof.
  induction s as [ | c s IH]; [reflexivity | ].
  rewrite split_on_cons. destruct (c =? sep) eqn:Hc.
  - apply N.eqb_eq in Hc. subst c.
    pose proof (split_on_not_nil sep s) as Hne.
    destruct (split_on sep s) as [ | piece pieces]; [congruence | ].
    change (join [sep] ([] :: piece :: pieces))
      with ([] ++ [sep] ++ join [sep] (piece :: pieces)).
    now rewrite IH.
  - destruct (split_on sep s) as [ | piece pieces].
    + now rewrite <- IH.
    + rewrite <- IH. destruct pieces; reflexivity.
Qed.

Lemma forallb_strip (P : N -> bool) (s : str) :
  forallb P s = true -> forallb P (strip s) = true.
Proof.
  destruct (strip_spec s) as (pre & post & Hs & _).
  intros H. rewrite Hs, !forallb_app in H.
  apply andb_prop in H as [_ H]. now apply andb_prop in H as [H _].
Qed.

Lemma csv_row_of_line_chars (P : N -> bool) (line : str) :
  forallb P line = true ->
  Forall (fun field => forallb P field = true) (csv_row_of_line line).
Proof.
  intros H. unfold csv_row_of_line.
  destruct (contains COMMA line); [ | repeat constructor; exact H].
  apply Forall_fmap. eapply Forall_impl; [apply split_on_pieces, H | ].
  intros piece Hpiece. now apply forallb_strip.
Qed.

Lemma join_chars (P : N -> bool) (sep : str) (parts : list str) :
  forallb P sep = true ->
  Forall (fun part => forallb P part = true) parts ->
  forallb P (join sep parts) = true.
Proof.
  intros Hsep. induction 1 as [ | p rest Hp Hrest IH]; [reflexivity | ].
  unfold join; fold join. destruct rest as [ | q rest]; [exact Hp | ].
  now rewrite !forallb_app, Hp, Hsep, IH.
Qed.

Lemma csv_field_chars (P : N -> bool) (field : str) :
  P QUOTE = true -> forallb P field = true ->
  forallb P (csv_field field) = true.
Proof.
  intros Hq H. unfold csv_field.
  destruct (csv_needs_quotes field); [ | exact H].
  rewrite !forallb_app. simpl. rewrite Hq. simpl. rewrite andb_true_r.
  unfold csv_double_quotes. clear -Hq H.
  induction field as [ | c field IH]; [reflexivity | ].
  simpl in *. apply andb_prop in H as [Hc H].
  rewrite forallb_app, (IH H), andb_true_r.
  destruct (c =? QUOTE); simpl; now rewrite ?Hq, ?Hc.
Qed.

Lemma csv_row_text_chars (P : N -> bool) (row : list str) :
  P QUOTE = true -> P COMMA = true -> P CR = true -> P LF = true ->
  Forall (fun field => forallb P field = true) row ->
  forallb P (csv_row_text row) = true.
Proof.
  intros Hq Hcomma Hcr Hlf Hrow. unfold csv_row_text.
  rewrite forallb_app. simpl. rewrite Hcr, Hlf. simpl. rewrite andb_true_r.
  assert (Hjoin : forallb P (join [COMMA] (csv_field <$> row)) = true).
  { apply join_chars; [simpl; now rewrite Hcomma | ].
    apply Forall_fmap. eapply Forall_impl; [exact Hrow | ].
    intros field Hfield. now apply csv_field_chars. }
  destruct row as [ | [ | c field] [ | f2 row] ]; try exact Hjoin.
  simpl. now rewrite Hq.
Qed.

Lemma contains_count (c : N) (s : str) :
  contains c s = false <-> count_char c s = 0%nat.
Proof.
  unfold contains, count_char.
  induction s as [ | d s IH]; simpl; [tauto | ].
  destruct (c =? d); simpl; [split; discriminate | exact IH].
Qed.

(** X11. The columns of a csv row: a line with k commas gives k + 1
    columns; a line without a comma is one column, kept as it is; the
    columns of a line with commas hold no comma and neither start nor end
    with whitespace. *)
Theorem csv_row_of_line_columns (line : str) :
  length (csv_row_of_line line) = S (count_char COMMA line)
  /\ (count_char COMMA line = 0%nat -> csv_row_of_line line = [line])
  /\ (count_char COMMA line <> 0%nat ->
      Forall (fun field =>
                (COMMA ∉ field)
                /\ (forall c rest, field = c :: rest -> isspace c = false)
                /\ (forall c front, field = front ++ [c] ->
                                    isspace c = false))
        (csv_row_of_line line)).
Proof.
  unfold csv_row_of_line.
  destruct (contains COMMA line) eqn:Hcomma.
  - split; [(now rewrite length_fmap, split_on_length) | ].
    split.
    + intros Hzero. apply contains_count in Hzero. congruence.
    + intros _. apply Forall_fmap.
      eapply Forall_impl; [apply (split_on_no_separator COMMA line) | ].
      intros piece Hpiece. simpl.
      destruct (strip_spec piece)
        as (pre & post & Hp & _ & _ & Hhead & Hlast).
      split; [ | split; assumption].
      intros Hin. apply Hpiece. rewrite Hp.
      apply elem_of_app. right. apply elem_of_app. now left.
  - apply contains_count in Hcomma. rewrite Hcomma.
    split; [reflexivity | ]. split; [reflexivity | congruence].
Qed.

Section CsvWriter.

Context (env : Env).

Lemma csv_rows_encode (lines : list str) :
  Forall (fun line => forallb encodable line = true) lines ->
  exists datas,
    Forall2 (fun line data =>
               utf8_encode (csv_row_text (csv_row_of_line line)) = Some data)
      lines datas
    /\ utf8_encode (concat ((fun line => csv_row_text (csv_row_of_line line))
                              <$> lines))
       = Some (concat datas).
Proof.
  induction 1 as [ | line rest Hline Hrest (datas & Hall & Hcat)].
  - exists []. split; [constructor | reflexivity].
  - assert (Hrow : is_Some (utf8_encode
                              (csv_row_text (csv_row_of_line line)))).
    { apply utf8_encode_encodable.
      apply csv_row_text_chars; try reflexivity.
      now apply csv_row_of_line_chars. }
    destruct Hrow as [data Hdata].
    exists (data :: datas). split; [now constructor | ].
    simpl. now apply utf8_encode_app.
Qed.

(** X12. Every text of Unicode scalar values can be written to a writable
    .csv path: the file is the UTF-8 encoding of one row per line of the
    text, each row ended by "\r\n", and it decodes back to those rows. *)
Theorem save_output_csv_writes_rows (result_text output_path : str)
  (st : State) :
  output_extension output_path = lit ".csv" ->
  write_error env output_path = None ->
  forallb encodable result_text = true ->
  exists data,
    save_output env result_text output_path st =
    (Ret tt,
     set_console (fun out => out ++ [saved_message output_path])
       (set_files (fun fs => <[output_path := data]> fs) st))
    /\ utf8_encode (csv_file_text result_text) = Some data
    /\ utf8_decode ErrIgnore data = csv_file_text result_text.
Proof.
  intros Hext Hopen Hchars.
  destruct (csv_rows_encode (split_on LF result_text))
    as (datas & Hall & Hcat); [now apply split_on_pieces | ].
  exists (concat datas).
  split; [now apply save_output_csv | ].
  split; [exact Hcat | ].
  now apply utf8_decode_encode.
Qed.

End CsvWriter.

(** ** Further properties: the extension of the output path *)

Lemma rfind_aux_absent (c : N) (s : str) :
  forall i found, c ∉ s -> rfind_aux c s i found = found.
Proof.
  induction s as [ | d s IH]; intros i found Hc; [reflexivity | ].
  apply not_elem_of_cons in Hc as [Hd Hs]. simpl.
  replace (d =? c) with false by (symmetry; apply N.eqb_neq; congruence).
  now apply IH.
Qed.

Lemma rfind_aux_last (c : N) (a b : str) :
  forall i found,
    c ∉ b -> rfind_aux c (a ++ c :: b) i found = (i + len a)%Z.
Proof.
  unfold len. induction a as [ | d a IH]; intros i found Hb; simpl.
  - rewrite N.eqb_refl, rfind_aux_absent by exact Hb. lia.
  - rewrite IH by exact Hb. lia.
Qed.

Lemma rfind_absent (c : N) (s : str) : c ∉ s -> rfind c s = (-1)%Z.
Proof. apply rfind_aux_absent. Qed.

Lemma rfind_last (c : N) (a b : str) :
  c ∉ b -> rfind c (a ++ c :: b) = len a.
Proof. intros Hb. unfold rfind. now rewrite rfind_aux_last. Qed.

(** [os.path.splitext] on a path made of a directory part, a base name and
    a last suffix. *)
Lemma splitext_parts (dir base e : str) :
  (dir = [] \/ exists d, dir = d ++ [SLASH]) ->
  SLASH ∉ base -> SLASH ∉ e -> DOT ∉ e ->
  splitext (dir ++ base ++ [DOT] ++ e) =
  if forallb (N.eqb DOT) base
  then (dir ++ base ++ [DOT] ++ e, [])
  else (dir ++ base, [DOT] ++ e).
Proof.
  intros Hdir Hbase He Hdot.
  assert (Hdotp : rfind DOT (dir ++ base ++ [DOT] ++ e) = len (dir ++ base)).
  { rewrite app_assoc. now apply rfind_last. }
  assert (Hnot : SLASH ∉ base ++ [DOT] ++ e).
  { rewrite !not_elem_of_app. repeat split; auto.
    intros H. apply list_elem_of_singleton in H. discriminate. }
  assert (Hsep : (rfind SLASH (dir ++ base ++ [DOT] ++ e) + 1)%Z = len dir).
  { destruct Hdir as [-> | [d ->] ].
    - simpl. now rewrite rfind_absent.
    - rewrite <- app_assoc. simpl. rewrite rfind_last by exact Hnot.
      unfold len. rewrite length_app. simpl. lia. }
  unfold splitext. rewrite Hdotp.
  replace (rfind SLASH (dir ++ base ++ [DOT] ++ e) <? len (dir ++ base))%Z
    with true.
  2:{ symmetry. apply Z.ltb_lt. unfold len in *. rewrite length_app. lia. }
  rewrite Hsep.
  assert (Hslice : slice (len dir) (len (dir ++ base))
                     (dir ++ base ++ [DOT] ++ e) = base).
  { unfold slice, len. rewrite length_app.
    replace (Z.to_nat (Z.of_nat (length dir + length base)
                       - Z.of_nat (length dir))) with (length base) by lia.
    rewrite Nat2Z.id, drop_app_length. now rewrite take_app_length. }
  rewrite Hslice.
  assert (Hall : existsb (fun c => negb (c =? DOT)) base
                 = negb (forallb (N.eqb DOT) base)).
  { clear. induction base as [ | c base IH]; [reflexivity | ].
    cbn [existsb forallb]. rewrite IH, (N.eqb_sym DOT c).
    now destruct (c =? DOT). }
  rewrite Hall. destruct (forallb (N.eqb DOT) base); simpl; [reflexivity | ].
  unfold len. rewrite Nat2Z.id.
  rewrite (app_assoc dir base), take_app_length, drop_app_length.
  reflexivity.
Qed.

Lemma all_dots_no_slash (dots : str) :
  forallb (N.eqb DOT) dots = true -> SLASH ∉ dots.
Proof.
  rewrite forallb_forall. intros Hall Hin.
  apply list_elem_of_In in Hin. specialize (Hall _ Hin). discriminate.
Qed.

Lemma flat_map_filter {A B} (f : A -> list B) (keep : A -> bool)
  (l : list A) :
  (forall x, keep x = false -> f x = []) ->
  flat_map f l = flat_map f (List.filter keep l).
Proof.
  intros Hdrop. induction l as [ | x l IH]; [reflexivity | ].
  simpl. destruct (keep x) eqn:Hx; simpl; [now rewrite IH | ].
  now rewrite (Hdrop x Hx).
Qed.

Section OutputPath.

Context (env : Env).

(** X13. A name made of dots and one suffix has no extension for
    [save_output]: an output path such as ".txt" or "out/.csv" is
    rejected as an unsupported format, and no file is written. *)
Theorem save_output_dotfile_is_unsupported (result_text dir dots e : str)
  (st : State) :
  (dir = [] \/ exists d, dir = d ++ [SLASH]) ->
  forallb (N.eqb DOT) dots = true ->
  SLASH ∉ e -> DOT ∉ e ->
  let output_path := dir ++ dots ++ [DOT] ++ e in
  save_output env result_text output_path st =
  (Ret tt,
   set_console
     (fun out => out ++ [CROSS_EMOJI ++ lit " Error saving output to "
                           ++ output_path
                           ++ lit ": Unsupported output format: "])
     st).
Proof.
  intros Hdir Hdots He Hdot output_path.
  assert (Hext : output_extension output_path = []).
  { unfold output_extension. subst output_path.
    rewrite splitext_parts, Hdots; auto using all_dots_no_slash. }
  rewrite save_output_unsupported by now rewrite Hext.
  unfold unsupported_format_error. rewrite Hext.
  now rewrite !app_nil_r.
Qed.

(** X14. [save_output] matches the extension without regard to case: for
    a base name that is not made of dots only, the extension is the last
    suffix in lower case, so a path ending in ".TXT" is written as text. *)
Theorem save_output_extension_ignores_case (result_text dir base e : str)
  (data : bytes) (st : State) :
  (dir = [] \/ exists d, dir = d ++ [SLASH]) ->
  forallb (N.eqb DOT) base = false ->
  SLASH ∉ base -> SLASH ∉ e -> DOT ∉ e ->
  lower e = lit "txt" ->
  let output_path := dir ++ base ++ [DOT] ++ e in
  write_error env output_path = None ->
  utf8_encode result_text = Some data ->
  output_extension output_path = lit ".txt"
  /\ save_output env result_text output_path st =
     (Ret tt,
      set_console (fun out => out ++ [saved_message output_path])
        (set_files (fun fs => <[output_path := data]> fs) st)).
Proof.
  intros Hdir Hbase Hslash He Hdot Hlower output_path Hopen Hdata.
  assert (Hext : output_extension output_path = lit ".txt").
  { unfold output_extension. subst output_path.
    rewrite splitext_parts, Hbase by assumption.
    change (lower (dir ++ base, [DOT] ++ e).2) with (DOT :: lower e).
    now rewrite Hlower. }
  split; [exact Hext | now apply save_output_txt].
Qed.

(** X15. The PDF writer drops blank lines: two texts with the same
    non-blank lines, in the same order, are written alike. *)
Theorem save_output_pdf_ignores_blank_lines (text1 text2 output_path : str)
  (st : State) :
  output_extension output_path = lit ".pdf" ->
  List.filter nonblank (split_on LF text1)
  = List.filter nonblank (split_on LF text2) ->
  save_output env text1 output_path st = save_output env text2 output_path st.
Proof.
  unfold output_extension, save_output. intros -> Hlines.
  change (str_eqb (lit ".pdf") (lit ".txt")) with false.
  change (str_eqb (lit ".pdf") (lit ".pdf")) with true. cbv iota.
  set (f := fun line : str => if truthy (strip line)
                              then [Paragraph line; Spacer 1 12] else []).
  assert (Hstory : flat_map f (split_on LF text1)
                   = flat_map f (split_on LF text2)).
  { rewrite (flat_map_filter f nonblank (split_on LF text1)),
      (flat_map_filter f nonblank (split_on LF text2)), Hlines;
      [reflexivity | | ]; intros line Hline; subst f; unfold nonblank in Hline;
      simpl; now rewrite Hline. }
  now rewrite Hstory.
Qed.

End OutputPath.

(** ** Further properties: loading what was saved *)

(** Shifting left and or-ing low bits is a sum. *)
Lemma lor_shiftl_add (a b k : N) :
  b < 2 ^ k -> N.lor (N.shiftl a k) b = a * 2 ^ k + b.
Proof.
  intros Hb.
  assert (Hdisjoint : N.land (N.shiftl a k) b = 0).
  { apply N.bits_inj. intros n. rewrite N.land_spec, N.bits_0.
    destruct (N.lt_ge_cases n k) as [Hn | Hn].
    - now rewrite N.shiftl_spec_low.
    - rewrite <- (N.mod_small b (2 ^ k)) by exact Hb.
      rewrite N.mod_pow2_bits_high by exact Hn. apply andb_false_r. }
  rewrite <- N.lxor_lor, <- N.add_nocarry_lxor by exact Hdisjoint.
  now rewrite N.shiftl_mul_pow2.
Qed.

Lemma land_low (c : N) :
  N.land c 0x3F = c mod 64 /\ N.land c 0x1F = c mod 32
  /\ N.land c 0x0F = c mod 16 /\ N.land c 0x07 = c mod 8.
Proof.
  change 0x3F with (N.ones 6). change 0x1F with (N.ones 5).
  change 0x0F with (N.ones 4). change 0x07 with (N.ones 3).
  now rewrite !N.land_ones.
Qed.

Lemma encodable_spec (c : N) :
  encodable c = true <-> c < 0xD800 \/ (0xE000 <= c /\ c < 0x110000).
Proof.
  unfold encodable.
  rewrite orb_true_iff, andb_true_iff, !N.ltb_lt, N.leb_le. tauto.
Qed.

Lemma is_continuation_spec (c : N) :
  is_continuation c = true <-> 0x80 <= c /\ c < 0xC0.
Proof.
  unfold is_continuation. now rewrite andb_true_iff, N.leb_le, N.ltb_lt.
Qed.

Lemma code_point_2 (c1 c2 : N) :
  encodable (N.lor (N.shiftl (N.land c1 0x1F) 6) (N.land c2 0x3F)) = true.
Proof.
  destruct (land_low c1) as (_ & -> & _). destruct (land_low c2) as (-> & _).
  rewrite lor_shiftl_add by (change (2 ^ 6) with 64; euclid).
  apply encodable_spec. change (2 ^ 6) with 64. left. euclid.
Qed.

Lemma code_point_3 (c1 c2 c3 : N) :
  0xE0 <= c1 < 0xF0 ->
  is_continuation c2 = true ->
  (if c2 <? 0xA0 then c1 =? 0xE0 else c1 =? 0xED) = false ->
  encodable (N.lor (N.shiftl (N.land c1 0x0F) 12)
               (N.lor (N.shiftl (N.land c2 0x3F) 6) (N.land c3 0x3F)))
  = true.
Proof.
  intros H1 H2 Hok. apply is_continuation_spec in H2.
  destruct (land_low c1) as (_ & _ & -> & _).
  destruct (land_low c2) as (-> & _). destruct (land_low c3) as (-> & _).
  rewrite (lor_shiftl_add _ _ 6) by (change (2 ^ 6) with 64; euclid).
  rewrite lor_shiftl_add
    by (change (2 ^ 6) with 64; change (2 ^ 12) with 4096; euclid).
  change (2 ^ 6) with 64. change (2 ^ 12) with 4096.
  apply encodable_spec.
  destruct (c2 <? 0xA0) eqn:Hlow.
  - apply N.ltb_lt in Hlow. apply N.eqb_neq in Hok. euclid.
  - apply N.ltb_ge in Hlow. apply N.eqb_neq in Hok. euclid.
Qed.

Lemma code_point_4 (c1 c2 c3 c4 : N) :
  0xF0 <= c1 < 0xF5 ->
  is_continuation c2 = true ->
  (if c2 <? 0x90 then c1 =? 0xF0 else c1 =? 0xF4) = false ->
  encodable (N.lor (N.shiftl (N.land c1 0x07) 18)
               (N.lor (N.shiftl (N.land c2 0x3F) 12)
                  (N.lor (N.shiftl (N.land c3 0x3F) 6) (N.land c4 0x3F))))
  = true.
Proof.
  intros H1 H2 Hok. apply is_continuation_spec in H2.
  destruct (land_low c1) as (_ & _ & _ & ->).
  destruct (land_low c2) as (-> & _). destruct (land_low c3) as (-> & _).
  destruct (land_low c4) as (-> & _).
  rewrite (lor_shiftl_add _ _ 6) by (change (2 ^ 6) with 64; euclid).
  rewrite (lor_shiftl_add _ _ 12)
    by (change (2 ^ 6) with 64; change (2 ^ 12) with 4096; euclid).
  rewrite lor_shiftl_add
    by (change (2 ^ 6) with 64; change (2 ^ 12) with 4096;
        change (2 ^ 18) with 262144; euclid).
  change (2 ^ 6) with 64. change (2 ^ 12) with 4096.
  change (2 ^ 18) with 262144.
  apply encodable_spec.
  destruct (c2 <? 0x90) eqn:Hlow.
  - apply N.ltb_lt in Hlow. apply N.eqb_neq in Hok. euclid.
  - apply N.ltb_ge in Hlow. apply N.eqb_neq in Hok. euclid.
Qed.

Lemma on_malformed_valid (errors : Errors) :
  forallb encodable (on_malformed errors) = true.
Proof. now destruct errors. Qed.

Ltac split_tests :=
  repeat match goal with
         | H : negb _ || _ = false |- _ =>
             apply orb_false_elim in H; destruct H
         | H : negb _ = false |- _ => apply negb_false_iff in H
         | H : (_ <? _) = true |- _ => apply N.ltb_lt in H
         | H : (_ <? _) = false |- _ => apply N.ltb_ge in H
         end.

(** The decoder only produces Unicode scalar values, whatever the bytes
    and the error handler are. *)
Lemma utf8_decode_valid_upto (errors : Errors) (n : nat) :
  forall bs, (length bs <= n)%nat ->
             forallb encodable (utf8_decode errors bs) = true.
Proof.
  induction n as [ | n IH]; intros bs Hlen.
  { destruct bs; [reflexivity | simpl in Hlen; lia]. }
  destruct bs as [ | b1 rest]; [reflexivity | ].
  unfold_decoder.
  repeat match goal with
         | |- context [match ?l with [] => _ | _ :: _ => _ end] =>
             is_var l; destruct l
         | |- context [if ?c then _ else _] => destruct c eqn:?
         end;
    simpl in Hlen;
    rewrite ?forallb_app, ?on_malformed_valid; cbn [forallb andb];
    rewrite ?IH by (simpl; lia);
    rewrite ?andb_true_r; try reflexivity.
  all: split_tests.
  all: first [ apply code_point_2
             | apply code_point_3; [lia | assumption | assumption]
             | apply code_point_4; [lia | assumption | assumption]
             | apply encodable_spec; left; lia ].
Qed.

Lemma utf8_decode_valid (errors : Errors) (bs : bytes) :
  forallb encodable (utf8_decode errors bs) = true.
Proof. now apply (utf8_decode_valid_upto errors (length bs)). Qed.

Lemma universal_newlines_cons (c : N) (s : str) :
  universal_newlines (c :: s) =
  if c =? CR then
    LF :: match s with
          | [] => []
          | d :: s' =>
              if d =? LF then universal_newlines s' else universal_newlines s
          end
  else c :: universal_newlines s.
Proof. reflexivity. Qed.

(** Reading with universal newlines leaves no carriage return, and adds
    no character but "\n". *)
Lemma universal_newlines_upto (P : N -> bool) (n : nat) :
  P LF = true ->
  forall s, (length s <= n)%nat ->
            (CR ∉ universal_newlines s)
            /\ (forallb P s = true ->
                forallb P (universal_newlines s) = true).
Proof.
  intros Hlf. induction n as [ | n IH]; intros s Hlen.
  { destruct s; [ | simpl in Hlen; lia].
    split; [apply not_elem_of_nil | reflexivity]. }
  destruct s as [ | c s]; [split; [apply not_elem_of_nil | reflexivity] | ].
  simpl in Hlen. rewrite universal_newlines_cons.
  destruct (c =? CR) eqn:Hc.
  - destruct s as [ | d s'].
    + split; [ | (intros _; simpl; now rewrite Hlf)].
      intros Hin. apply list_elem_of_singleton in Hin. discriminate.
    + simpl in Hlen.
      destruct (d =? LF).
      * destruct (IH s' ltac:(lia)) as [Hcr Hall]. split.
        -- intros Hin. apply elem_of_cons in Hin as [Heq | Hin];
             [discriminate | auto].
        -- cbn [forallb]. intros H. apply andb_prop in H as [_ H].
           apply andb_prop in H as [_ H]. now rewrite Hlf, Hall.
      * destruct (IH (d :: s') ltac:(simpl; lia)) as [Hcr Hall]. split.
        -- intros Hin. apply elem_of_cons in Hin as [Heq | Hin];
             [discriminate | auto].
        -- intros H. change (forallb P (c :: d :: s'))
             with (P c && forallb P (d :: s')) in H.
           apply andb_prop in H as [_ H].
           change (forallb P (LF :: universal_newlines (d :: s')))
             with (P LF && forallb P (universal_newlines (d :: s'))).
           now rewrite Hlf, Hall.
  - destruct (IH s ltac:(lia)) as [Hcr Hall]. split.
    + intros Hin. apply elem_of_cons in Hin as [Heq | Hin]; [ | auto].
      apply N.eqb_neq in Hc. congruence.
    + cbn [forallb]. intros H. apply andb_prop in H as [Hpc H].
      now rewrite Hpc, Hall.
Qed.

Section LoadAndSave.

Context (env : Env).

(** X16. What the loader returns for a text file can always be written
    back: for any bytes in the file, saving the loaded text to a .txt
    path succeeds, and loading that file gives the same text again. *)
Theorem load_save_load (source output_path : str) (data : bytes)
  (st : State) :
  plain_text_source source = true ->
  files st !! source = Some data ->
  output_extension output_path = lit ".txt" ->
  plain_text_source output_path = true ->
  write_error env output_path = None ->
  exists text st',
    load_source env source st = (Ret text, st)
    /\ save_output env text output_path st = (Ret tt, st')
    /\ load_source env output_path st' = (Ret text, st').
Proof.
  intros Hplain Hdata Hext Hplain' Hopen.
  set (text := universal_newlines (utf8_decode ErrIgnore data)).
  destruct (universal_newlines_upto encodable
              (length (utf8_decode ErrIgnore data)) eq_refl
              (utf8_decode ErrIgnore data) (le_n _)) as [Hcr Hvalid].
  specialize (Hvalid (utf8_decode_valid ErrIgnore data)).
  apply utf8_encode_encodable in Hvalid as [encoded Hencoded].
  fold text in Hcr, Hencoded.
  exists text. eexists.
  split; [now apply load_source_existing_file | ].
  split; [now apply (save_output_txt env text output_path encoded) | ].
  erewrite (load_source_existing_file env output_path);
    [ | exact Hplain' | simpl; apply lookup_insert_eq].
  rewrite (utf8_decode_encode ErrIgnore text encoded Hencoded).
  now rewrite universal_newlines_id.
Qed.

(** X2. A URL source is fetched, whatever its extension: no file is read
    and no package installed.  The body is returned unless the request
    failed or the status is from 400 to 599; in those cases the warning is
    printed and the text is empty. *)
Theorem load_source_url (source : str) (st : State) :
  startswith source (lit "http://") = true
  \/ startswith source (lit "https://") = true ->
  load_source env source st =
  match requests_get env source with
  | HttpRaise msg =>
      (Ret [],
       set_console
         (fun out => out ++ [lit "Warning: Could not load source '"
                               ++ source ++ lit "'. Error: " ++ msg]) st)
  | HttpResponse status_code status_error text =>
      if ((400 <=? status_code) && (status_code <? 600))%Z
      then (Ret [],
            set_console
              (fun out => out ++ [lit "Warning: Could not load source '"
                                    ++ source ++ lit "'. Error: "
                                    ++ status_error]) st)
      else (Ret text, st)
  end.
Proof.
  intros Hurl. unfold load_source.
  replace (startswith source (lit "http://")
           || startswith source (lit "https://")) with true
    by (symmetry; apply orb_true_iff; exact Hurl).
  run. destruct (requests_get env source) as [msg | code err text];
    [reflexivity | ].
  destruct ((400 <=? code)%Z && (code <? 600)%Z); reflexivity.
Qed.

End LoadAndSave.

(** ** Further properties on concrete inputs *)

Lemma load_source_url_witness :
  startswith (lit "https://example.org/paper.pdf") (lit "https://") = true
  /\ load_source Cases.online (lit "https://example.org/paper.pdf")
       (fresh Cases.disk)
     = (Ret (lit "<html>"), fresh Cases.disk)
  /\ (load_source (Cases.env 404 (lit "<html>"))
        (lit "https://example.org/paper.pdf") (fresh Cases.disk)).1
     = Ret [].
Proof.
  assert (Hurl : startswith (lit "https://example.org/paper.pdf")
                   (lit "https://") = true) by (vm_compute; reflexivity).
  split; [exact Hurl | ]. split.
  - rewrite (load_source_url Cases.online _ _ (or_intror Hurl)).
    reflexivity.
  - rewrite (load_source_url (Cases.env 404 (lit "<html>")) _ _
               (or_intror Hurl)).
    reflexivity.
Defined.

Lemma pdf_without_text_is_skipped_witness :
  map_stage Cases.online [lit "scan.pdf"] [] (fresh Cases.disk)
  = (Ret [],
     set_console
       (fun out => out ++ [lit "-> Processing: scan.pdf";
                           WARNING_EMOJI
                             ++ lit " No text found in scan.pdf, skipping."])
       (fresh Cases.disk)).
Proof.
  apply (pdf_without_text_is_skipped Cases.online (lit "scan.pdf")
           (Demo.ascii_bytes "%PDF-1.7") [None; Some (lit "  ")]);
    try (vm_compute; reflexivity).
  repeat constructor.
Defined.


Lemma nonblank_iff_witness :
  nonblank (lit "  a ") = true /\ nonblank (lit "   ") = false.
Proof.
  split.
  - apply nonblank_iff. exists 97. split; [ | reflexivity].
    vm_compute. repeat constructor.
  - destruct (nonblank (lit "   ")) eqn:Hkeep; [ | reflexivity].
    apply nonblank_iff in Hkeep as (c & Hc & Hnot).
    vm_compute in Hc.
    repeat (apply elem_of_cons in Hc as [-> | Hc]; [discriminate | ]).
    now apply not_elem_of_nil in Hc.
Defined.


Lemma save_output_txt_unencodable_witness :
  utf8_encode Cases.surrogate_text = None
  /\ files (save_output Demo.env Cases.surrogate_text (lit "a.txt")
              Demo.home).2 !! lit "a.txt" = Some [].
Proof.
  assert (Hnone : utf8_encode Cases.surrogate_text = None)
    by (vm_compute; reflexivity).
  split; [exact Hnone | ].
  rewrite (save_output_txt_unencodable Demo.env Cases.surrogate_text
             (lit "a.txt") Demo.home eq_refl eq_refl Hnone).
  simpl. apply lookup_insert_eq.
Defined.

Lemma csv_row_of_line_columns_witness :
  csv_row_of_line (lit " name , age,city ")
  = [lit "name"; lit "age"; lit "city"]
  /\ length (csv_row_of_line (lit " name , age,city ")) = 3%nat
  /\ csv_row_of_line (lit " no comma ") = [lit " no comma "].
Proof.
  split; [vm_compute; reflexivity | ]. split.
  - rewrite (proj1 (csv_row_of_line_columns (lit " name , age,city "))).
    reflexivity.
  - apply (proj1 (proj2 (csv_row_of_line_columns (lit " no comma ")))).
    reflexivity.
Defined.

Lemma save_output_csv_writes_rows_witness :
  forallb encodable (lit "a, b" ++ NL ++ NL ++ [228; 0x1F4E6]) = true
  /\ exists data,
       files (save_output Demo.env (lit "a, b" ++ NL ++ NL ++ [228; 0x1F4E6])
                (lit "out.csv") Demo.home).2 !! lit "out.csv" = Some data
       /\ utf8_decode ErrIgnore data
          = lit "a,b" ++ [CR; LF] ++ [QUOTE; QUOTE] ++ [CR; LF]
              ++ [228; 0x1F4E6] ++ [CR; LF].
Proof.
  assert (Hchars : forallb encodable
                     (lit "a, b" ++ NL ++ NL ++ [228; 0x1F4E6]) = true)
    by (vm_compute; reflexivity).
  split; [exact Hchars | ].
  destruct (save_output_csv_writes_rows Demo.env _ (lit "out.csv") Demo.home
              eq_refl eq_refl Hchars) as (data & Hrun & _ & Hback).
  exists data. rewrite Hrun. simpl.
  split; [apply lookup_insert_eq | ].
  rewrite Hback. vm_compute. reflexivity.
Defined.

Lemma save_output_dotfile_is_unsupported_witness :
  save_output Demo.env (lit "answer") (lit "out/.txt") Demo.home
  = (Ret tt,
     set_console
       (fun out => out ++ [CROSS_EMOJI
                             ++ lit " Error saving output to out/.txt"
                             ++ lit ": Unsupported output format: "])
       Demo.home).
Proof.
  apply (save_output_dotfile_is_unsupported Demo.env (lit "answer")
           (lit "out/") [] (lit "txt") Demo.home).
  - right. exists (lit "out"). reflexivity.
  - reflexivity.
  - vm_compute. intros H.
    repeat (apply elem_of_cons in H as [H | H]; [discriminate | ]).
    now apply not_elem_of_nil in H.
  - vm_compute. intros H.
    repeat (apply elem_of_cons in H as [H | H]; [discriminate | ]).
    now apply not_elem_of_nil in H.
Defined.

Ltac not_in_literal :=
  vm_compute; let H := fresh in
  intros H;
  repeat (apply elem_of_cons in H as [H | H]; [discriminate | ]);
  now apply not_elem_of_nil in H.

Lemma save_output_extension_ignores_case_witness :
  output_extension (lit "out/REPORT.v2.TxT") = lit ".txt"
  /\ files (save_output Demo.env (lit "answer") (lit "out/REPORT.v2.TxT")
              Demo.home).2 !! lit "out/REPORT.v2.TxT"
     = Some (Demo.ascii_bytes "answer").
Proof.
  destruct (save_output_extension_ignores_case Demo.env (lit "answer")
              (lit "out/") (lit "REPORT.v2") (lit "TxT")
              (Demo.ascii_bytes "answer") Demo.home)
    as [Hext Hrun]; try reflexivity; try not_in_literal.
  { right. exists (lit "out"). reflexivity. }
  split; [exact Hext | ].
  change (lit "out/" ++ lit "REPORT.v2" ++ [DOT] ++ lit "TxT")
    with (lit "out/REPORT.v2.TxT") in Hrun.
  rewrite Hrun. simpl. apply lookup_insert_eq.
Defined.

Lemma save_output_pdf_ignores_blank_lines_witness :
  output_extension (lit "out.pdf") = lit ".pdf"
  /\ save_output Cases.online (lit "one" ++ NL ++ lit "  " ++ NL ++ lit "two")
       (lit "out.pdf") Demo.home
     = save_output Cases.online (lit "one" ++ NL ++ lit "two" ++ NL)
         (lit "out.pdf") Demo.home.
Proof.
  split; [vm_compute; reflexivity | ].
  apply save_output_pdf_ignores_blank_lines; vm_compute; reflexivity.
Defined.

Lemma load_save_load_witness :
  plain_text_source (lit "bad.txt") = true
  /\ files Demo.home !! lit "bad.txt" = Some ["a"; "255"; "b"]%byte
  /\ exists st',
       save_output Demo.env (lit "ab") (lit "copy.txt") Demo.home
       = (Ret tt, st')
       /\ load_source Demo.env (lit "copy.txt") st' = (Ret (lit "ab"), st').
Proof.
  assert (Hplain : plain_text_source (lit "bad.txt") = true)
    by (vm_compute; reflexivity).
  assert (Hdata : files Demo.home !! lit "bad.txt"
                  = Some ["a"; "255"; "b"]%byte) by (vm_compute; reflexivity).
  split; [exact Hplain | ]. split; [exact Hdata | ].
  destruct (load_save_load Demo.env (lit "bad.txt") (lit "copy.txt")
              ["a"; "255"; "b"]%byte Demo.home Hplain Hdata)
    as (text & st' & Hload & Hsave & Hback); try (vm_compute; reflexivity).
  assert (Htext : text = lit "ab").
  { vm_compute in Hload. inversion Hload. vm_compute. reflexivity. }
  subst text. exists st'. split; assumption.
Defined.


Lemma main_failed_reduce_writes_empty_file_witness :
  let cl := Demo.cmd ["a.txt"]%string None (Some "out.txt"%string) in
  exists st',
    main Demo.env_offline cl Demo.home = (Ret tt, st')
    /\ files st' !! lit "out.txt" = Some []
    /\ last (console st')
       = Some (NL ++ CHECK_EMOJI ++ lit " Output saved to: out.txt").
Proof.
  intros cl.
  destruct (main_failed_reduce_writes_empty_file Demo.env_offline cl
              Demo.home (Demo.after_map Demo.env_offline ["a.txt"]%string)
              [summary_record (lit "a.txt") []] (lit "out.txt")
              (lit "Connection error."))
    as (st' & Hrun & Hfiles & Hconsole);
    try discriminate; try (vm_compute; reflexivity).
  exists st'. split; [exact Hrun | ].
  split; [rewrite Hfiles; apply lookup_insert_eq | ].
  rewrite Hconsole. vm_compute. reflexivity.
Defined.
